(** * Serial data capture: [serbinlog.py] and [serlog.py]

    A shallow embedding of the two Python 2 command-line loggers found in
    [002 - data capture/python], together with the properties of the frame
    synchroniser, the record decoder, the line copier and the session
    driver.

    Python 2 [str] values (which are byte strings) are lists of
    [Byte.byte]; Python integers are [Z]; exceptions are an error result;
    the serial port is an explicit state threaded through every read. *)

From Stdlib Require Import Strings.Byte Strings.String.
From Stdlib Require Import ZArith List Lia Bool Arith.
Import ListNotations.
Local Open Scope Z_scope.

(* ================================================================== *)
(** ** The Python runtime used by the scripts *)
(* ================================================================== *)

Module Py.

(** The exceptions that can occur in the two scripts.  [SystemExit]
    carries the exit status given to [exit] or [sys.exit]. *)
Inductive exn : Type :=
| SerialException
| SerialTimeoutException
| IOError
| TypeError
| StructError
| IndexError
| NameError
| ValueError
| KeyboardInterrupt
| SystemExit (code : Z).

(** [except serial.SerialTimeoutException] *)
Definition is_SerialTimeoutException (e : exn) : bool :=
  match e with SerialTimeoutException => true | _ => false end.

(** [except IOError]: [SerialException] derives from [IOError] and
    [SerialTimeoutException] from [SerialException]. *)
Definition is_IOError (e : exn) : bool :=
  match e with
  | IOError | SerialException | SerialTimeoutException => true
  | _ => false
  end.

(** [except Exception]: everything but the direct children of
    [BaseException]. *)
Definition is_Exception (e : exn) : bool :=
  match e with
  | KeyboardInterrupt | SystemExit _ => false
  | _ => true
  end.

(** Result of running a piece of code: a value, a raised exception, or
    [NoFuel] when the iteration bound given to a loop was used up. *)
Inductive res (A : Type) : Type :=
| Ok (a : A)
| Raise (e : exn)
| NoFuel.
Arguments Ok {A} a.
Arguments Raise {A} e.
Arguments NoFuel {A}.

Definition str := list byte.

Definition byte_val (b : byte) : Z := Z.of_N (Byte.to_N b).

(** [ord(c)]: defined on strings of length one only. *)
Definition ord (c : str) : res Z :=
  match c with
  | [b] => Ok (byte_val b)
  | _ => Raise TypeError
  end.

(** [l[i]] on a list, for a non-negative index. *)
Definition getitem {A : Type} (l : list A) (i : nat) : res A :=
  match nth_error l i with
  | Some x => Ok x
  | None => Raise IndexError
  end.

(** *** [struct.unpack('<LHH', data)] and [struct.pack('<LHH', ...)] *)

(** Little-endian unsigned value of a byte string. *)
Fixpoint le_uint (bs : str) : Z :=
  match bs with
  | [] => 0
  | b :: rest => byte_val b + 256 * le_uint rest
  end.

Definition unpack_LHH (data : str) : res (Z * Z * Z) :=
  if Nat.eqb (length data) 8 then
    Ok (le_uint (firstn 4 data),
        le_uint (firstn 2 (skipn 4 data)),
        le_uint (firstn 2 (skipn 6 data)))
  else Raise StructError.

Definition byte_of_Z (z : Z) : byte :=
  match Byte.of_N (Z.to_N z) with
  | Some b => b
  | None => x00
  end.

(** The [n] little-endian bytes of [v]. *)
Fixpoint le_bytes (n : nat) (v : Z) : str :=
  match n with
  | O => []
  | S n' => byte_of_Z (v mod 256) :: le_bytes n' (v / 256)
  end.

Definition in_range (v : Z) (bits : Z) : bool :=
  (0 <=? v) && (v <? 2 ^ bits).

Definition pack_LHH (ts v1 v2 : Z) : res str :=
  if in_range ts 32 && in_range v1 16 && in_range v2 16 then
    Ok (le_bytes 4 ts ++ le_bytes 2 v1 ++ le_bytes 2 v2)
  else Raise StructError.

(** *** ['{:d}'.format(n)] *)

Definition digit_char (d : Z) : byte := byte_of_Z (48 + d).

(** Digits of a non-negative [n], most significant first, pushed in
    front of [acc]; [fuel] bounds the number of digits. *)
Fixpoint digits_loop (fuel : nat) (n : Z) (acc : str) : str :=
  match fuel with
  | O => acc
  | S fuel' =>
      let acc' := digit_char (n mod 10) :: acc in
      if n / 10 =? 0 then acc' else digits_loop fuel' (n / 10) acc'
  end.

Definition digits (n : Z) : str :=
  digits_loop (S (Z.to_nat (Z.log2 n))) n [].

Definition format_d (n : Z) : str :=
  if n <? 0 then x2d :: digits (- n) else digits n.

(** ['{:d},{:d},{:d}'.format(ts, v1, v2)] *)
Definition format_ddd (ts v1 v2 : Z) : str :=
  format_d ts ++ [x2c] ++ format_d v1 ++ [x2c] ++ format_d v2.

(** *** [s.strip()] on a byte string *)

(** [isspace] in the C locale: tab, line feed, vertical tab, form feed,
    carriage return and space. *)
Definition isspace (b : byte) : bool :=
  match b with
  | x09 | x0a | x0b | x0c | x0d | x20 => true
  | _ => false
  end.

Fixpoint lstrip (s : str) : str :=
  match s with
  | [] => []
  | b :: rest => if isspace b then lstrip rest else s
  end.

Definition rstrip (s : str) : str := rev (lstrip (rev s)).

Definition strip (s : str) : str := rstrip (lstrip s).

End Py.

(* ================================================================== *)
(** ** The serial port *)
(* ================================================================== *)

Module PySerial.
Import Py.

(** What the link does once the bytes in flight are used up: it stays
    silent, so that every read runs into the read timeout, or the
    blocked read raises [e] (a [SerialException] when the device goes
    away, [KeyboardInterrupt] when the user interrupts the process). *)
Inductive port_end : Type :=
| Silent
| Broken (e : exn).

(** A port opened with [timeout=10].  [pending] are the bytes that will
    still arrive, [reads] counts the calls of [read] and [readline]
    served so far. *)
Record Serial : Type := mkSerial {
  pending : str;
  ending : port_end;
  reads : nat
}.

(** Code that uses the port. *)
Definition io (A : Type) : Type := Serial -> res A * Serial.

Definition ret {A : Type} (a : A) : io A := fun ser => (Ok a, ser).

Definition lift {A : Type} (r : res A) : io A := fun ser => (r, ser).

Definition bind {A B : Type} (c : io A) (k : A -> io B) : io B :=
  fun ser =>
    match c ser with
    | (Ok a, ser') => k a ser'
    | (Raise e, ser') => (Raise e, ser')
    | (NoFuel, ser') => (NoFuel, ser')
    end.

(** [ser.read(size)].  With a timeout set, [read] returns the bytes
    received when the timeout expires, which may be fewer than [size]
    and may be none; [SerialTimeoutException] is raised by write
    timeouts only. *)
Definition read (size : nat) : io str :=
  fun ser =>
    if Nat.leb size (length (pending ser)) then
      (Ok (firstn size (pending ser)),
       mkSerial (skipn size (pending ser)) (ending ser) (S (reads ser)))
    else
      match ending ser with
      | Silent => (Ok (pending ser), mkSerial [] Silent (S (reads ser)))
      | Broken e => (Raise e, mkSerial [] (Broken e) (S (reads ser)))
      end.

(** Splits [s] after its first line feed. *)
Fixpoint split_line (s : str) : option (str * str) :=
  match s with
  | [] => None
  | b :: rest =>
      if Byte.eqb b x0a then Some ([b], rest)
      else match split_line rest with
           | Some (line, rest') => Some (b :: line, rest')
           | None => None
           end
  end.

(** [ser.readline()]: bytes up to and including the next line feed, or
    what arrived before the timeout. *)
Definition readline : io str :=
  fun ser =>
    match split_line (pending ser) with
    | Some (line, rest) =>
        (Ok line, mkSerial rest (ending ser) (S (reads ser)))
    | None =>
        match ending ser with
        | Silent => (Ok (pending ser), mkSerial [] Silent (S (reads ser)))
        | Broken e => (Raise e, mkSerial [] (Broken e) (S (reads ser)))
        end
    end.

End PySerial.

Declare Scope io_scope.
Delimit Scope io_scope with io.
Notation "x <- c ;; k" := (PySerial.bind c (fun x => k))
  (at level 61, c at next level, right associativity) : io_scope.

(* ================================================================== *)
(** ** [serbinlog.py]: frame synchroniser and record decoder *)
(* ================================================================== *)

Module Serbinlog.
Import Py PySerial.
Local Open Scope io_scope.

Section Synchronizer.
(** The start sequence is a global of the script. *)
Variable seq : list Z.

(** The [while True] loop of [waitForStart]; [fuel] bounds the number
    of iterations. *)
Fixpoint waitForStart_loop (fuel : nat) (index : nat) : io unit :=
  match fuel with
  | O => lift NoFuel
  | S fuel' =>
      c <- read 1 ;;
      data <- lift (ord c) ;;
      expected <- lift (getitem seq index) ;;
      if negb (data =? expected) then
        waitForStart_loop fuel' 0
      else
        let index := S index in
        if Nat.eqb index (length seq) then ret tt
        else waitForStart_loop fuel' index
  end.

(** Every iteration takes a byte off the port or raises, so one more
    iteration than there are bytes in flight is enough (see
    [waitForStart_loop_fuel]). *)
Definition waitForStart_seq : io unit :=
  fun ser => waitForStart_loop (S (length (pending ser))) 0 ser.

(** The variant that tests a mismatching byte against the first
    element of the start sequence again instead of dropping it. *)
Fixpoint waitForStart_retest_loop (fuel : nat) (index : nat) : io unit :=
  match fuel with
  | O => lift NoFuel
  | S fuel' =>
      c <- read 1 ;;
      data <- lift (ord c) ;;
      expected <- lift (getitem seq index) ;;
      if negb (data =? expected) then
        first <- lift (getitem seq 0) ;;
        if negb (data =? first) then
          waitForStart_retest_loop fuel' 0
        else if Nat.eqb 1 (length seq) then ret tt
        else waitForStart_retest_loop fuel' 1
      else
        let index := S index in
        if Nat.eqb index (length seq) then ret tt
        else waitForStart_retest_loop fuel' index
  end.

Definition waitForStart_retest_seq : io unit :=
  fun ser => waitForStart_retest_loop (S (length (pending ser))) 0 ser.
End Synchronizer.

Definition START_SEQ : list Z := [0xFF; 0xFF; 0xFF; 0xFF].

Definition waitForStart : io unit := waitForStart_seq START_SEQ.

Definition waitForStart_retest : io unit := waitForStart_retest_seq START_SEQ.

Definition readRecord : io str :=
  _ <- waitForStart ;;
  data <- read 8 ;;
  s <- lift (unpack_LHH data) ;;
  let '(ts, v1, v2) := s in
  ret (format_ddd ts v1 v2).

End Serbinlog.

(* ================================================================== *)
(** ** The session driver shared by the two scripts *)
(* ================================================================== *)

(** The [main] functions of the two scripts are the same text but for the
    statements that produce one unit of output, the modules imported at
    the top of the file and a first [print]. *)

Module Session.
Import Py PySerial.
Local Open Scope io_scope.

(** What is printed on the console. *)
Inductive message : Type :=
| StartSeqIs (n : nat)
| Receiving
| Writing
| ExceptionMsg (e : exn)
| Text (s : str)
| TimedOut
| OtherException (e : exn)
| Traceback
| Closing.

(** What a session does to its two handles and to the console.
    Writing to the file and printing are taken to succeed. *)
Inductive event : Type :=
| OpenPort
| ClosePort
| OpenFile
| FileWrite (s : str)
| CloseFile
| Console (m : message).

(** The parsed options and what the two [open] calls will meet. *)
Record config : Type := mkConfig {
  opt_verbose : bool;
  opt_port : str;
  port_open : Serial + exn;
  file_open : option exn
}.

(** The logging loop: how it ended, what it did, and the port it left. *)
Record outcome : Type := mkOutcome {
  status : res unit;
  events : list event;
  port : Serial
}.

Definition emit (evs : list event) (o : outcome) : outcome :=
  mkOutcome (status o) (evs ++ events o) (port o).

(** The whole process: [Ok] when [main] returned, [Raise] when an
    exception left it. *)
Record run : Type := mkRun {
  exit : res unit;
  trace : list event
}.

(** The name [traceback] is bound only if the module was imported. *)
Definition format_exc (imports : list string) : res unit :=
  if existsb (String.eqb "traceback") imports then Ok tt
  else Raise NameError.

Section Driver.
Variable imports : list string.
Variable produce : io str.
Variable banner : list event.

(** The two [except] clauses of the loop; each ends in [break] when it
    runs to its end, and an exception raised inside a clause leaves
    [main]. *)
Definition handler (e : exn) (ser : Serial) : outcome :=
  if is_SerialTimeoutException e then
    mkOutcome (Ok tt) [Console TimedOut] ser
  else if is_Exception e then
    match format_exc imports with
    | Ok _ => mkOutcome (Ok tt) [Console (OtherException e); Console Traceback] ser
    | Raise e' => mkOutcome (Raise e') [Console (OtherException e)] ser
    | NoFuel => mkOutcome NoFuel [Console (OtherException e)] ser
    end
  else mkOutcome (Raise e) [] ser.

(** The [while True] loop of [main]. *)
Fixpoint logging_loop (fuel : nat) (verbose : bool) (ser : Serial) : outcome :=
  match fuel with
  | O => mkOutcome NoFuel [] ser
  | S fuel' =>
      match produce ser with
      | (Ok s, ser') =>
          emit ((if verbose then [Console (Text s)] else [])
                  ++ [FileWrite s; FileWrite [x0a]])
               (logging_loop fuel' verbose ser')
      | (Raise e, ser') => handler e ser'
      | (NoFuel, ser') => mkOutcome NoFuel [] ser'
      end
  end.

Definition main (fuel : nat) (cfg : config) : run :=
  match opt_port cfg with
  | [] => mkRun (Raise (SystemExit 2)) banner
  | _ :: _ =>
      match port_open cfg with
      | inr e =>
          if is_IOError e then
            mkRun (Raise (SystemExit 1)) (banner ++ [Console (ExceptionMsg e)])
          else mkRun (Raise e) banner
      | inl ser =>
          let opened := banner ++ [OpenPort; Console Receiving] in
          match file_open cfg with
          | Some e =>
              if is_IOError e then
                mkRun (Raise (SystemExit 1)) (opened ++ [Console (ExceptionMsg e)])
              else mkRun (Raise e) opened
          | None =>
              let o := logging_loop fuel (opt_verbose cfg) ser in
              let logged := opened ++ [OpenFile; Console Writing] ++ events o in
              match status o with
              | Ok _ => mkRun (Ok tt) (logged ++ [Console Closing; CloseFile])
              | Raise e => mkRun (Raise e) logged
              | NoFuel => mkRun NoFuel logged
              end
          end
      end
  end.
End Driver.

(** The bytes passed to [opfile.write], in order. *)
Fixpoint written (t : list event) : str :=
  match t with
  | [] => []
  | FileWrite s :: t' => s ++ written t'
  | _ :: t' => written t'
  end.

Definition event_eqb (a b : event) : bool :=
  match a, b with
  | OpenPort, OpenPort | ClosePort, ClosePort
  | OpenFile, OpenFile | CloseFile, CloseFile => true
  | _, _ => false
  end.

(** How often one of the four handle operations occurs in a trace. *)
Definition count (e : event) (t : list event) : nat :=
  List.length (filter (event_eqb e) t).

Definition is_write (e : event) : bool :=
  match e with FileWrite _ => true | _ => false end.

End Session.

Module SerbinlogMain.
Import Py PySerial Session.

Definition imports : list string :=
  ["os"; "sys"; "optparse"; "serial"; "datetime"; "traceback"; "struct"]%string.

Definition banner : list event :=
  [Console (StartSeqIs (List.length Serbinlog.START_SEQ))].

Definition logging_loop := Session.logging_loop imports Serbinlog.readRecord.

Definition main := Session.main imports Serbinlog.readRecord banner.
End SerbinlogMain.

(* ================================================================== *)
(** ** [serlog.py]: the line copier *)
(* ================================================================== *)

Module Serlog.
Import Py PySerial Session.
Local Open Scope io_scope.

Definition imports : list string :=
  ["os"; "sys"; "optparse"; "serial"; "datetime"]%string.

(** [s = ser.readline()] followed by [s = s.strip()] *)
Definition nextLine : io str :=
  s <- readline ;;
  ret (strip s).

Definition logging_loop := Session.logging_loop imports nextLine.

Definition main := Session.main imports nextLine [].
End Serlog.

(* ================================================================== *)
(** ** Vocabulary of the properties *)
(* ================================================================== *)

Module Vocabulary.
Import Py PySerial Session.

(** The start sequence as it appears on the wire. *)
Definition sentinel : str := [xff; xff; xff; xff].

(** The sentinel lies in [s] at offset [i]. *)
Definition occurs_at (i : nat) (s : str) : Prop :=
  firstn 4 (skipn i s) = sentinel.

(** Offset of the first occurrence of the sentinel in [s]. *)
Fixpoint first_occ (s : str) : option nat :=
  match s with
  | [] => None
  | _ :: rest =>
      if list_eq_dec byte_eq_dec (firstn 4 s) sentinel then Some 0%nat
      else option_map S (first_occ rest)
  end.

(** What [ord(ser.read(1))] raises once the bytes in flight are used
    up. *)
Definition starved (e : port_end) : exn :=
  match e with
  | Silent => TypeError
  | Broken x => x
  end.

(** What [struct.unpack('<LHH', ser.read(8))] raises when fewer than
    eight bytes are left. *)
Definition truncated (e : port_end) : exn :=
  match e with
  | Silent => StructError
  | Broken x => x
  end.

Definition is_digit (b : byte) : bool :=
  (48 <=? byte_val b) && (byte_val b <=? 57).

(** Value of a string of decimal digits. *)
Definition dec_value (s : str) : Z :=
  fold_left (fun acc b => 10 * acc + (byte_val b - 48)) s 0.

(** [s] is the decimal numeral of [n]: digits only, at least one, and no
    zero in front unless the numeral is the single digit zero. *)
Definition decimal_of (n : Z) (s : str) : Prop :=
  s <> [] /\ forallb is_digit s = true /\
  (hd x00 s = x30 -> s = [x30]) /\ dec_value s = n.

(** Little-endian values written out byte by byte. *)
Definition uint32_le (b0 b1 b2 b3 : byte) : Z :=
  byte_val b0 + byte_val b1 * 256 + byte_val b2 * 65536
  + byte_val b3 * 16777216.

Definition uint16_le (b0 b1 : byte) : Z :=
  byte_val b0 + byte_val b1 * 256.

(** The text written for the payload [data] of a frame. *)
Definition record_text (data : str) : str :=
  format_ddd (le_uint (firstn 4 data))
             (le_uint (firstn 2 (skipn 4 data)))
             (le_uint (firstn 2 (skipn 6 data))).

(** How the loop of a script that imports [traceback] ends on the
    exception [x]: both [except] clauses leave the loop, anything else
    leaves [main]. *)
Definition ended_by (x : exn) : res unit :=
  if is_Exception x then Ok tt else Raise x.

(** What one turn of the loop does with the unit of output [s]. *)
Definition unit_events (verbose : bool) (s : str) : list event :=
  (if verbose then [Console (Text s)] else [])
    ++ [FileWrite s; FileWrite [x0a]].

(** Both handles are opened at most once and, once opened, closed
    exactly once. *)
Definition opened_once_closed_once (t : list event) : Prop :=
  (count OpenPort t <= 1)%nat /\ (count OpenFile t <= 1)%nat /\
  (count OpenPort t = 1%nat -> count ClosePort t = 1%nat) /\
  (count OpenFile t = 1%nat -> count CloseFile t = 1%nat).

(** Both handles are opened at most once, the port is never closed, the
    file at most once; when [main] returns both were opened and closing
    the file was the last thing done. *)
Definition handle_discipline (r : run) : Prop :=
  (count OpenPort (trace r) <= 1)%nat /\
  (count OpenFile (trace r) <= 1)%nat /\
  count ClosePort (trace r) = 0%nat /\
  (count CloseFile (trace r) <= 1)%nat /\
  (exit r = Ok tt ->
   count OpenPort (trace r) = 1%nat /\
   count OpenFile (trace r) = 1%nat /\
   count CloseFile (trace r) = 1%nat /\
   exists t, trace r = t ++ [CloseFile]).

(** A session in which the port and the file both open. *)
Definition both_open (verbose : bool) (p : byte) (name : str)
    (ser : Serial) : config :=
  mkConfig verbose (p :: name) (inl ser) None.

(** The text of a line with the white space at its end taken off and
    one line feed put behind. *)
Definition rstripped_line (line : str) : str := rstrip line ++ [x0a].

Definition no_leading_space (s : str) : Prop :=
  match s with
  | [] => True
  | b :: _ => isspace b = false
  end.

Definition no_trailing_space (s : str) : Prop := no_leading_space (rev s).

(** The line feed is the only byte a line cannot contain. *)
Definition no_line_feed (s : str) : Prop := ~ In x0a s.

End Vocabulary.

(* ================================================================== *)
(** ** Streams, and the life of the output file *)
(* ================================================================== *)

Module Streams.
Import Py PySerial Session Vocabulary.

(** Frames on the wire: every payload behind a start sequence. *)
Definition frames (payloads : list str) : str :=
  flat_map (fun p => sentinel ++ p) payloads.

(** Lines on the wire, each closed by a line feed. *)
Definition text_lines (ls : list str) : str :=
  flat_map (fun l => l ++ [x0a]) ls.

(** How the loop of [serlog.py], which does not import [traceback], ends
    on the exception [x]. *)
Definition serlog_ended_by (x : exn) : res unit :=
  if is_SerialTimeoutException x then Ok tt
  else if is_Exception x then Raise NameError
  else Raise x.

(** The output file is not yet opened, open, or closed. *)
Inductive file_state : Type :=
| NotOpened
| Opened
| Closed.

(** What an event does to the file; [None] when the file is not in a
    state that allows it. *)
Definition file_step (st : file_state) (ev : event) : option file_state :=
  match ev, st with
  | OpenFile, NotOpened => Some Opened
  | OpenFile, _ => None
  | FileWrite _, Opened => Some Opened
  | FileWrite _, _ => None
  | CloseFile, Opened => Some Closed
  | CloseFile, _ => None
  | _, _ => Some st
  end.

Fixpoint file_run (st : file_state) (t : list event) : option file_state :=
  match t with
  | [] => Some st
  | ev :: t' =>
      match file_step st ev with
      | Some st' => file_run st' t'
      | None => None
      end
  end.

(** The bytes a record line is made of: decimal digits and the comma. *)
Definition is_record_char (b : byte) : bool :=
  is_digit b || Byte.eqb b x2c.

(** What [main] does when it cannot start: no port given, the port does
    not open, or the file does not open. *)
Definition startup_policy (cfg : config) (r : run) : Prop :=
  (opt_port cfg = [] ->
   exit r = Raise (SystemExit 2) /\
   count OpenPort (trace r) = 0%nat /\ count OpenFile (trace r) = 0%nat) /\
  (forall x, opt_port cfg <> [] -> port_open cfg = inr x ->
   exit r = Raise (if is_IOError x then SystemExit 1 else x) /\
   count OpenPort (trace r) = 0%nat /\ count OpenFile (trace r) = 0%nat) /\
  (forall ser x, opt_port cfg <> [] -> port_open cfg = inl ser ->
   file_open cfg = Some x ->
   exit r = Raise (if is_IOError x then SystemExit 1 else x) /\
   count OpenPort (trace r) = 1%nat /\ count OpenFile (trace r) = 0%nat /\
   written (trace r) = []).

End Streams.

(* ================================================================== *)
(** ** The default name of the output file *)
(* ================================================================== *)

Module DefaultName.
Import Py Vocabulary.

(** What [datetime.datetime.now()] gives, to the second. *)
Record datetime : Type := mkDatetime {
  year : Z;
  month : Z;
  day : Z;
  hour : Z;
  minute : Z;
  second : Z
}.

(** A number below one hundred on two digits. *)
Definition pad2 (n : Z) : str := [digit_char (n / 10); digit_char (n mod 10)].

(** The directives used by the scripts; any other character behind [%]
    is kept as it is. *)
Definition directive (dt : datetime) (c : byte) : str :=
  match c with
  | x59 => format_d (year dt)
  | x6d => pad2 (month dt)
  | x64 => pad2 (day dt)
  | x48 => pad2 (hour dt)
  | x4d => pad2 (minute dt)
  | x53 => pad2 (second dt)
  | _ => [x25; c]
  end.

(** [dt.strftime(fmt)] *)
Fixpoint strftime (dt : datetime) (fmt : str) : str :=
  match fmt with
  | [] => []
  | x25 :: c :: rest => directive dt c ++ strftime dt rest
  | c :: rest => c :: strftime dt rest
  end.

(** [fn_def = dt.strftime("%Y-%m-%d-%H%M%S-log_data.csv")] *)
Definition fn_def (dt : datetime) : str :=
  strftime dt (list_byte_of_string "%Y-%m-%d-%H%M%S-log_data.csv").

(** The dates and times [strftime] accepts and prints on four digits. *)
Definition valid (dt : datetime) : Prop :=
  1900 <= year dt <= 9999 /\ 1 <= month dt <= 12 /\ 1 <= day dt <= 31 /\
  0 <= hour dt <= 23 /\ 0 <= minute dt <= 59 /\ 0 <= second dt <= 59.

(** [s] is the number [n] written on two decimal digits. *)
Definition two_digits (n : Z) (s : str) : Prop :=
  List.length s = 2%nat /\ forallb is_digit s = true /\ dec_value s = n.

End DefaultName.

(* ================================================================== *)
(** ** Properties of the frame synchroniser *)
(* ================================================================== *)

Module SyncFacts.
Import Py PySerial Serbinlog Vocabulary.

Lemma byte_val_range (b : byte) : 0 <= byte_val b < 256.
Proof.
  unfold byte_val. pose proof (Byte.to_N_bounded b). lia.
Qed.

Lemma byte_of_Z_val (b : byte) : byte_of_Z (byte_val b) = b.
Proof.
  unfold byte_of_Z, byte_val. rewrite N2Z.id, Byte.of_to_N. reflexivity.
Qed.

Lemma byte_val_of_Z (z : Z) : 0 <= z < 256 -> byte_val (byte_of_Z z) = z.
Proof.
  intros Hz. unfold byte_of_Z, byte_val.
  destruct (Byte.of_N (Z.to_N z)) as [b|] eqn:E.
  - apply Byte.to_of_N in E. rewrite E. lia.
  - apply Byte.of_N_None_iff in E. lia.
Qed.

Lemma byte_val_inj (a b : byte) : byte_val a = byte_val b -> a = b.
Proof.
  intros H. rewrite <- (byte_of_Z_val a), <- (byte_of_Z_val b), H.
  reflexivity.
Qed.

Lemma byte_val_ff (b : byte) : (byte_val b =? 255) = true <-> b = xff.
Proof.
  rewrite Z.eqb_eq. split.
  - intros H. apply byte_val_inj. rewrite H. reflexivity.
  - intros ->. reflexivity.
Qed.

Section Loop.
Variable seq : list Z.

(** One iteration on a port that has a byte in flight. *)
Lemma loop_cons fuel index b rest e n :
  waitForStart_loop seq (S fuel) index (mkSerial (b :: rest) e n) =
  match nth_error seq index with
  | None => (Raise IndexError, mkSerial rest e (S n))
  | Some expected =>
      if negb (byte_val b =? expected) then
        waitForStart_loop seq fuel 0 (mkSerial rest e (S n))
      else if Nat.eqb (S index) (List.length seq) then
        (Ok tt, mkSerial rest e (S n))
      else waitForStart_loop seq fuel (S index) (mkSerial rest e (S n))
  end.
Proof.
  cbn [waitForStart_loop]. unfold bind, read, lift, ord, getitem, ret.
  cbn [pending ending reads List.length Nat.leb firstn skipn].
  destruct (nth_error seq index) as [expected|]; [|reflexivity].
  destruct (negb (byte_val b =? expected)); [reflexivity|].
  destruct (Nat.eqb (S index) (List.length seq)); reflexivity.
Qed.

(** One iteration on a port with nothing left. *)
Lemma loop_nil fuel index e n :
  waitForStart_loop seq (S fuel) index (mkSerial [] e n) =
  (Raise (starved e), mkSerial [] e (S n)).
Proof.
  cbn [waitForStart_loop]. unfold bind, read, lift, ord.
  destruct e; reflexivity.
Qed.

(** The loop never uses up a bound larger than the number of bytes
    in flight, and its result does not depend on the bound. *)
Lemma waitForStart_loop_fuel rest :
  forall fuel index e n,
    (List.length rest < fuel)%nat ->
    waitForStart_loop seq fuel index (mkSerial rest e n) =
    waitForStart_loop seq (S (List.length rest)) index (mkSerial rest e n).
Proof.
  induction rest as [|b rest IH]; intros fuel index e n Hf;
    (destruct fuel as [|fuel]; [cbn in Hf; lia|]).
  - rewrite !loop_nil. reflexivity.
  - cbn [List.length] in *. rewrite !loop_cons.
    destruct (nth_error seq index) as [x|]; [|reflexivity].
    destruct (negb (byte_val b =? x)).
    + apply IH. lia.
    + destruct (Nat.eqb (S index) (List.length seq)); [reflexivity|].
      apply IH. lia.
Qed.

Lemma waitForStart_loop_terminates rest :
  forall fuel index e n,
    (List.length rest < fuel)%nat ->
    fst (waitForStart_loop seq fuel index (mkSerial rest e n)) <> NoFuel.
Proof.
  induction rest as [|b rest IH]; intros fuel index e n Hf;
    (destruct fuel as [|fuel]; [cbn in Hf; lia|]).
  - rewrite loop_nil. discriminate.
  - cbn [List.length] in *. rewrite loop_cons.
    destruct (nth_error seq index) as [x|]; [|discriminate].
    destruct (negb (byte_val b =? x)).
    + apply IH. lia.
    + destruct (Nat.eqb (S index) (List.length seq)); [discriminate|].
      apply IH. lia.
Qed.
End Loop.


Lemma sentinel_START_SEQ : map byte_val sentinel = START_SEQ.
Proof. reflexivity. Qed.

Lemma first_occ_run (k : nat) :
  (k < 4)%nat -> first_occ (repeat xff k) = None.
Proof.
  intros Hk.
  do 4 (destruct k as [|k]; [reflexivity|]). lia.
Qed.

Lemma first_occ_full (t : str) :
  first_occ (repeat xff 3 ++ xff :: t) = Some 0%nat.
Proof. reflexivity. Qed.

Lemma first_occ_break (k : nat) (b : byte) (t : str) :
  (k < 4)%nat -> b <> xff ->
  first_occ (repeat xff k ++ b :: t) =
  option_map (fun i => (i + S k)%nat) (first_occ t).
Proof.
  intros Hk Hb.
  assert (Hmap : forall o : option nat,
             option_map S o = option_map (fun i => (i + 1)%nat) o).
  { intros [i|]; cbn; [f_equal; lia | reflexivity]. }
  do 4 (destruct k as [|k];
        [cbn [repeat app first_occ];
         repeat (match goal with
                 | |- context [list_eq_dec byte_eq_dec ?l sentinel] =>
                     destruct (list_eq_dec byte_eq_dec l sentinel) as [E|_];
                     [exfalso; cbn in E; unfold sentinel in E; congruence|]
                 end);
         destruct (first_occ t) as [i|]; cbn; [f_equal; lia | reflexivity]
        |]).
  lia.
Qed.

(** The loop in state [k] has just read [k] bytes [0xFF]; it stops
    after the first sentinel of the stream made of these and of the
    bytes in flight. *)
Lemma loop_first_occ (s : str) :
  forall k fuel e n,
    (k < 4)%nat -> (List.length s < fuel)%nat ->
    waitForStart_loop START_SEQ fuel k (mkSerial s e n) =
    match first_occ (repeat xff k ++ s) with
    | Some i => (Ok tt, mkSerial (skipn (i + 4 - k) s) e (n + (i + 4 - k)))
    | None => (Raise (starved e), mkSerial [] e (n + S (List.length s)))
    end.
Proof.
  induction s as [|b t IH]; intros k fuel e n Hk Hf;
    (destruct fuel as [|fuel]; [cbn in Hf; lia|]).
  - rewrite loop_nil, app_nil_r, first_occ_run by assumption.
    cbn [List.length]. do 2 f_equal. lia.
  - cbn [List.length] in Hf. rewrite loop_cons.
    assert (Hnth : nth_error START_SEQ k = Some 255).
    { do 4 (destruct k as [|k]; [reflexivity|]). lia. }
    rewrite Hnth.
    destruct (byte_val b =? 255) eqn:Eb; cbn [negb].
    + apply byte_val_ff in Eb. subst b.
      destruct (Nat.eqb (S k) (List.length START_SEQ)) eqn:Ek.
      * apply Nat.eqb_eq in Ek. cbn in Ek.
        assert (k = 3%nat) by lia. subst k.
        rewrite first_occ_full. cbn [Nat.add Nat.sub skipn].
        do 2 f_equal. lia.
      * apply Nat.eqb_neq in Ek. cbn in Ek.
        rewrite IH by lia.
        replace (repeat xff k ++ xff :: t) with (repeat xff (S k) ++ t).
        2:{ do 3 (destruct k as [|k]; [reflexivity|]). lia. }
        destruct (first_occ (repeat xff (S k) ++ t)) as [i|].
        -- replace (i + 4 - k)%nat with (S (i + 4 - S k)) by lia.
           cbn [skipn]. do 2 f_equal. lia.
        -- cbn [List.length]. do 2 f_equal. lia.
    + assert (Hb : b <> xff).
      { intros ->. discriminate Eb. }
      rewrite IH by lia. rewrite (first_occ_break k b t Hk Hb).
      cbn [repeat app].
      destruct (first_occ t) as [i|]; cbn [option_map].
      * replace (i + S k + 4 - k)%nat with (S (i + 4 - 0)) by lia.
        cbn [skipn]. do 2 f_equal. lia.
      * cbn [List.length]. do 2 f_equal. lia.
Qed.


Lemma occurs_at_nil (i : nat) : ~ occurs_at i [].
Proof.
  unfold occurs_at. rewrite skipn_nil. cbn. discriminate.
Qed.

Lemma first_occ_sound (s : str) :
  forall i, first_occ s = Some i ->
            occurs_at i s /\ (forall j, occurs_at j s -> (i <= j)%nat).
Proof.
  induction s as [|b t IH]; intros i Hi; [discriminate|].
  cbn [first_occ] in Hi.
  destruct (list_eq_dec byte_eq_dec (firstn 4 (b :: t)) sentinel) as [E|E].
  - injection Hi as <-. split; [exact E | intros; lia].
  - destruct (first_occ t) as [i'|]; [|discriminate].
    injection Hi as <-. destruct (IH i' eq_refl) as [Hocc Hmin].
    split; [exact Hocc|].
    intros [|j] Hj; [contradiction|].
    apply Hmin in Hj. lia.
Qed.

Lemma first_occ_complete (s : str) :
  forall j, occurs_at j s -> exists i, first_occ s = Some i.
Proof.
  induction s as [|b t IH]; intros j Hj.
  - destruct (occurs_at_nil j Hj).
  - cbn [first_occ].
    destruct (list_eq_dec byte_eq_dec (firstn 4 (b :: t)) sentinel) as [E|E].
    + exists 0%nat. reflexivity.
    + destruct j as [|j]; [contradiction|].
      destruct (IH j Hj) as [i ->]. exists (S i). reflexivity.
Qed.

Lemma occurs_at_split (i : nat) (s : str) :
  occurs_at i s -> s = firstn i s ++ sentinel ++ skipn (i + 4) s.
Proof.
  unfold occurs_at. intros H.
  rewrite <- H, Nat.add_comm, <- skipn_skipn, !firstn_skipn. reflexivity.
Qed.

Lemma waitForStart_eq (s : str) (e : port_end) (n : nat) :
  waitForStart (mkSerial s e n) =
  match first_occ s with
  | Some i => (Ok tt, mkSerial (skipn (i + 4) s) e (n + (i + 4)))
  | None => (Raise (starved e), mkSerial [] e (n + S (List.length s)))
  end.
Proof.
  unfold waitForStart, waitForStart_seq. cbn [pending].
  rewrite loop_first_occ by lia. cbn [repeat app].
  destruct (first_occ s); rewrite ?Nat.sub_0_r; reflexivity.
Qed.

(** C1: on every byte stream that contains the sentinel bytes
    [FF FF FF FF] somewhere, [waitForStart] returns, and the port is
    left exactly behind the last byte of the first occurrence, whatever
    bytes come before it; one [read] was made per byte up to there. *)
Theorem waitForStart_stops_after_first_sentinel
    (s : str) (e : port_end) (n : nat) :
  (exists j, occurs_at j s) ->
  exists i,
    occurs_at i s /\
    (forall j, occurs_at j s -> (i <= j)%nat) /\
    s = firstn i s ++ sentinel ++ skipn (i + 4) s /\
    waitForStart (mkSerial s e n) =
    (Ok tt, mkSerial (skipn (i + 4) s) e (n + (i + 4))).
Proof.
  intros [j Hj].
  destruct (first_occ_complete s j Hj) as [i Hi].
  destruct (first_occ_sound s i Hi) as [Hocc Hmin].
  exists i. repeat split; try assumption.
  - apply occurs_at_split, Hocc.
  - rewrite waitForStart_eq, Hi. reflexivity.
Qed.

Lemma waitForStart_stops_after_first_sentinel_witness :
  exists i,
    occurs_at i [xff; xff; x00; xff; xff; xff; xff; x2a] /\
    (forall j, occurs_at j [xff; xff; x00; xff; xff; xff; xff; x2a] ->
               (i <= j)%nat) /\
    [xff; xff; x00; xff; xff; xff; xff; x2a] =
      firstn i [xff; xff; x00; xff; xff; xff; xff; x2a] ++ sentinel ++
      skipn (i + 4) [xff; xff; x00; xff; xff; xff; xff; x2a] /\
    waitForStart (mkSerial [xff; xff; x00; xff; xff; xff; xff; x2a] Silent 0) =
    (Ok tt,
     mkSerial (skipn (i + 4) [xff; xff; x00; xff; xff; xff; xff; x2a])
              Silent (0 + (i + 4))).
Proof.
  apply (waitForStart_stops_after_first_sentinel
           [xff; xff; x00; xff; xff; xff; xff; x2a] Silent 0).
  exists 3%nat. reflexivity.
Defined.

(** With a start sequence whose parts differ the dropped byte shows:
    after [01] the stream [01 02] holds the sequence [1, 2], which the
    loop misses and the re-testing variant finds. *)
Example dropped_byte_is_observable :
  fst (waitForStart_seq [1; 2] (mkSerial [x01; x01; x02; x07] Silent 0))
    = Raise TypeError /\
  waitForStart_retest_seq [1; 2] (mkSerial [x01; x01; x02; x07] Silent 0)
    = (Ok tt, mkSerial [x07] Silent 3).
Proof. split; reflexivity. Qed.

Lemma retest_loop_agrees (fuel : nat) :
  forall index ser,
    (index < 4)%nat ->
    waitForStart_loop START_SEQ fuel index ser =
    waitForStart_retest_loop START_SEQ fuel index ser.
Proof.
  induction fuel as [|fuel IH]; intros index ser Hi; [reflexivity|].
  cbn [waitForStart_loop waitForStart_retest_loop]. unfold bind.
  destruct (read 1 ser) as [[c|x|] ser']; try reflexivity.
  unfold lift at 1 4.
  destruct (ord c) as [data|x|]; try reflexivity.
  assert (Hnth : getitem START_SEQ index = Ok 255).
  { do 4 (destruct index as [|index]; [reflexivity|]). lia. }
  assert (Hfirst : getitem START_SEQ 0 = Ok 255) by reflexivity.
  rewrite Hnth, Hfirst. unfold lift.
  destruct (negb (data =? 255)).
  - apply IH. lia.
  - destruct (Nat.eqb (S index) (List.length START_SEQ)) eqn:E.
    + reflexivity.
    + apply IH. apply Nat.eqb_neq in E. cbn in E. lia.
Qed.

(** C10: for the start sequence of the script, four bytes [0xFF], the
    loop that drops a mismatching byte and the variant that tests it
    against [START_SEQ[0]] again give the same result and leave the same
    port on every input: the same bytes are used up and success comes at
    the same place. *)
Theorem waitForStart_agrees_with_retest (ser : Serial) :
  waitForStart ser = waitForStart_retest ser.
Proof.
  unfold waitForStart, waitForStart_retest, waitForStart_seq,
    waitForStart_retest_seq.
  apply retest_loop_agrees. lia.
Qed.

End SyncFacts.

(* ================================================================== *)
(** ** Properties of the record decoder *)
(* ================================================================== *)

Module DecodeFacts.
Import Py PySerial Serbinlog Vocabulary SyncFacts.

Lemma le_uint_range (bs : str) :
  0 <= le_uint bs < 256 ^ Z.of_nat (List.length bs).
Proof.
  induction bs as [|b bs IH].
  - cbn. lia.
  - cbn [le_uint List.length]. rewrite Nat2Z.inj_succ, Z.pow_succ_r by lia.
    pose proof (byte_val_range b). lia.
Qed.

Lemma le_bytes_le_uint (bs : str) :
  le_bytes (List.length bs) (le_uint bs) = bs.
Proof.
  induction bs as [|b bs IH]; [reflexivity|].
  cbn [le_uint List.length le_bytes].
  pose proof (byte_val_range b) as Hb.
  replace ((byte_val b + 256 * le_uint bs) mod 256) with (byte_val b).
  2:{ apply Z.mod_unique with (q := le_uint bs); lia. }
  replace ((byte_val b + 256 * le_uint bs) / 256) with (le_uint bs).
  2:{ apply Z.div_unique with (r := byte_val b); lia. }
  rewrite byte_of_Z_val, IH. reflexivity.
Qed.

Lemma in_range_le_uint (bs : str) (bits : Z) :
  256 ^ Z.of_nat (List.length bs) = 2 ^ bits ->
  in_range (le_uint bs) bits = true.
Proof.
  intros H. pose proof (le_uint_range bs) as Hr. unfold in_range.
  apply andb_true_intro. split; [apply Z.leb_le | apply Z.ltb_lt]; lia.
Qed.

(** C3: decoding an 8-byte payload into (timestamp, v1, v2) and packing
    these three values again with the layout [<LHH] gives back the
    eight bytes. *)
Theorem unpack_then_pack (b0 b1 b2 b3 b4 b5 b6 b7 : byte) :
  exists ts v1 v2,
    unpack_LHH [b0; b1; b2; b3; b4; b5; b6; b7] = Ok (ts, v1, v2) /\
    pack_LHH ts v1 v2 = Ok [b0; b1; b2; b3; b4; b5; b6; b7].
Proof.
  eexists _, _, _. split; [reflexivity|].
  cbn [firstn skipn]. unfold pack_LHH.
  rewrite (in_range_le_uint [b0; b1; b2; b3] 32) by reflexivity.
  rewrite (in_range_le_uint [b4; b5] 16) by reflexivity.
  rewrite (in_range_le_uint [b6; b7] 16) by reflexivity.
  cbn [andb].
  pose proof (le_bytes_le_uint [b0; b1; b2; b3]) as Hts.
  pose proof (le_bytes_le_uint [b4; b5]) as Hv1.
  pose proof (le_bytes_le_uint [b6; b7]) as Hv2.
  cbn [List.length] in Hts, Hv1, Hv2.
  rewrite Hts, Hv1, Hv2. reflexivity.
Qed.


(** *** Decimal text *)

Lemma dec_value_snoc (l : str) (d : byte) :
  dec_value (l ++ [d]) = 10 * dec_value l + (byte_val d - 48).
Proof.
  unfold dec_value. rewrite fold_left_app. reflexivity.
Qed.

Lemma digit_char_val (d : Z) :
  0 <= d < 10 -> byte_val (digit_char d) = 48 + d.
Proof.
  intros Hd. unfold digit_char. apply byte_val_of_Z. lia.
Qed.

Lemma is_digit_digit_char (d : Z) :
  0 <= d < 10 -> is_digit (digit_char d) = true.
Proof.
  intros Hd. unfold is_digit. rewrite digit_char_val by assumption.
  apply andb_true_intro. split; apply Z.leb_le; lia.
Qed.

Lemma pow2_ge_16 (f : nat) : (4 <= f)%nat -> 16 <= 2 ^ Z.of_nat f.
Proof.
  intros Hf. replace (Z.of_nat f) with (4 + Z.of_nat (f - 4)) by lia.
  rewrite Z.pow_add_r by lia.
  assert (0 < 2 ^ Z.of_nat (f - 4)) by (apply Z.pow_pos_nonneg; lia).
  change (2 ^ 4) with 16. lia.
Qed.

(** With enough fuel the loop puts the numeral of [n] in front of
    [acc]. *)
Lemma digits_loop_spec (fuel : nat) :
  forall n acc,
    (1 <= fuel)%nat -> 0 <= n < 2 ^ Z.of_nat fuel ->
    exists l,
      digits_loop fuel n acc = l ++ acc /\
      l <> [] /\ forallb is_digit l = true /\ dec_value l = n /\
      (byte_val (hd x00 l) = 48 -> n = 0) /\
      (n = 0 -> l = [x30]).
Proof.
  induction fuel as [|fuel IH]; intros n acc Hf Hn; [lia|].
  cbn [digits_loop].
  assert (Hd : 0 <= n mod 10 < 10) by (apply Z.mod_pos_bound; lia).
  pose proof (Z.div_mod n 10 ltac:(lia)) as Hdm.
  destruct (n / 10 =? 0) eqn:Eq.
  - apply Z.eqb_eq in Eq.
    assert (Hsmall : n mod 10 = n) by lia.
    exists [digit_char (n mod 10)]. repeat split.
    + discriminate.
    + cbn [forallb]. rewrite is_digit_digit_char by assumption. reflexivity.
    + unfold dec_value. cbn [fold_left].
      rewrite digit_char_val by assumption. lia.
    + cbn [hd]. rewrite digit_char_val by assumption. lia.
    + intros ->. reflexivity.
  - apply Z.eqb_neq in Eq.
    assert (Hq : 0 < n / 10).
    { assert (0 <= n / 10) by (apply Z.div_pos; lia). lia. }
    assert (Hfuel : (4 <= S fuel)%nat).
    { destruct fuel as [|[|[|fuel]]]; cbn in Hn; lia. }
    rewrite Nat2Z.inj_succ, Z.pow_succ_r in Hn by lia.
    destruct fuel as [|fuel']; [lia|].
    destruct (IH (n / 10) (digit_char (n mod 10) :: acc))
      as (l & Hl & Hne & Hdig & Hval & Hhd & _); [lia | lia |].
    exists (l ++ [digit_char (n mod 10)]). repeat split.
    + rewrite Hl, <- app_assoc. reflexivity.
    + destruct l; discriminate.
    + rewrite forallb_app, Hdig. cbn [forallb].
      rewrite is_digit_digit_char by assumption. reflexivity.
    + rewrite dec_value_snoc, Hval, digit_char_val by assumption. lia.
    + destruct l as [|c l]; [contradiction|].
      cbn [hd app] in *. intros Hc. apply Hhd in Hc. lia.
    + lia.
Qed.

(** ['{:d}'.format(n)] is the decimal numeral of a non-negative [n]. *)
Lemma format_d_decimal (n : Z) : 0 <= n -> decimal_of n (format_d n).
Proof.
  intros Hn. unfold format_d.
  destruct (n <? 0) eqn:E; [apply Z.ltb_lt in E; lia|].
  unfold digits.
  destruct (digits_loop_spec (S (Z.to_nat (Z.log2 n))) n [])
    as (l & Hl & Hne & Hdig & Hval & Hhd & Hzero); [lia | |].
  { rewrite Nat2Z.inj_succ, Z2Nat.id by apply Z.log2_nonneg.
    destruct (Z.eq_dec n 0) as [->|Hnz]; [cbn; lia|].
    pose proof (Z.log2_spec n ltac:(lia)). lia. }
  rewrite Hl, app_nil_r. repeat split; try assumption.
  intros Hx. apply Hzero, Hhd. rewrite Hx. reflexivity.
Qed.

Lemma uint32_le_eq (b0 b1 b2 b3 : byte) :
  le_uint [b0; b1; b2; b3] = uint32_le b0 b1 b2 b3.
Proof. unfold uint32_le. cbn [le_uint]. lia. Qed.

Lemma uint16_le_eq (b0 b1 : byte) :
  le_uint [b0; b1] = uint16_le b0 b1.
Proof. unfold uint16_le. cbn [le_uint]. lia. Qed.

Lemma uint32_le_nonneg (b0 b1 b2 b3 : byte) : 0 <= uint32_le b0 b1 b2 b3.
Proof.
  rewrite <- uint32_le_eq. apply le_uint_range.
Qed.

Lemma uint16_le_nonneg (b0 b1 : byte) : 0 <= uint16_le b0 b1.
Proof.
  rewrite <- uint16_le_eq. apply le_uint_range.
Qed.

(** [readRecord] once the start sequence has gone by. *)
Lemma readRecord_after_sync (ser : Serial) (data rest : str)
    (e : port_end) (n : nat) :
  List.length data = 8%nat ->
  waitForStart ser = (Ok tt, mkSerial (data ++ rest) e n) ->
  readRecord ser = (Ok (record_text data), mkSerial rest e (S n)).
Proof.
  intros Hlen Hsync. unfold readRecord, bind. rewrite Hsync.
  unfold read. cbn [pending ending reads].
  rewrite length_app, Hlen. cbn [Nat.add Nat.leb].
  rewrite <- Hlen at 1 2. rewrite firstn_app, Nat.sub_diag, firstn_all.
  cbn [firstn]. rewrite app_nil_r, skipn_app, Nat.sub_diag, skipn_all.
  cbn [skipn app]. unfold lift, unpack_LHH. rewrite Hlen.
  reflexivity.
Qed.

(** [readRecord] on any port: the start sequence is looked for, then
    eight bytes are asked for. *)
Lemma readRecord_eq (s : str) (e : port_end) (n : nat) :
  readRecord (mkSerial s e n) =
  match first_occ s with
  | None => (Raise (starved e), mkSerial [] e (n + S (List.length s)))
  | Some i =>
      if Nat.leb 8 (List.length (skipn (i + 4) s)) then
        (Ok (record_text (firstn 8 (skipn (i + 4) s))),
         mkSerial (skipn 8 (skipn (i + 4) s)) e (S (n + (i + 4))))
      else (Raise (truncated e), mkSerial [] e (S (n + (i + 4))))
  end.
Proof.
  unfold readRecord, bind. rewrite waitForStart_eq.
  destruct (first_occ s) as [i|]; [|reflexivity].
  unfold read. cbn [pending ending reads].
  destruct (Nat.leb 8 (List.length (skipn (i + 4) s))) eqn:E.
  - apply Nat.leb_le in E. unfold lift, unpack_LHH.
    rewrite firstn_length_le by assumption. reflexivity.
  - apply Nat.leb_gt in E.
    destruct e as [|x]; [|reflexivity].
    unfold lift, unpack_LHH. cbn [truncated].
    destruct (Nat.eqb (List.length (skipn (i + 4) s)) 8) eqn:E8;
      [apply Nat.eqb_eq in E8; lia | reflexivity].
Qed.

(** C2: the eight bytes [b0 .. b7] read behind the start sequence give
    the text [<timestamp>,<v1>,<v2>] with timestamp
    [b0 + b1*256 + b2*65536 + b3*16777216], v1 [b4 + b5*256] and v2
    [b6 + b7*256]; the text depends on these bytes only, each field is
    the decimal numeral of its value with no zero in front, the fields
    are separated by one comma and nothing follows; the payload
    [00 00 00 00 01 00 02 00] gives [0,1,2]. *)
Theorem readRecord_text
    (ser : Serial) (b0 b1 b2 b3 b4 b5 b6 b7 : byte) (rest : str)
    (e : port_end) (n : nat) :
  waitForStart ser =
    (Ok tt, mkSerial (b0 :: b1 :: b2 :: b3 :: b4 :: b5 :: b6 :: b7 :: rest) e n) ->
  exists ts v1 v2 : str,
    readRecord ser =
      (Ok (record_text [b0; b1; b2; b3; b4; b5; b6; b7]),
       mkSerial rest e (S n)) /\
    record_text [b0; b1; b2; b3; b4; b5; b6; b7] =
      ts ++ [x2c] ++ v1 ++ [x2c] ++ v2 /\
    decimal_of (uint32_le b0 b1 b2 b3) ts /\
    decimal_of (uint16_le b4 b5) v1 /\
    decimal_of (uint16_le b6 b7) v2 /\
    record_text [x00; x00; x00; x00; x01; x00; x02; x00] =
      [x30; x2c; x31; x2c; x32].
Proof.
  intros Hsync.
  exists (format_d (uint32_le b0 b1 b2 b3)), (format_d (uint16_le b4 b5)),
    (format_d (uint16_le b6 b7)).
  split; [|split; [|split; [|split; [|split]]]].
  - exact (readRecord_after_sync ser [b0; b1; b2; b3; b4; b5; b6; b7]
             rest e n eq_refl Hsync).
  - unfold record_text. cbn [firstn skipn].
    rewrite uint32_le_eq, !uint16_le_eq. reflexivity.
  - apply format_d_decimal, uint32_le_nonneg.
  - apply format_d_decimal, uint16_le_nonneg.
  - apply format_d_decimal, uint16_le_nonneg.
  - reflexivity.
Qed.

Lemma readRecord_text_witness :
  exists ts v1 v2 : str,
    readRecord
      (mkSerial [x07; xff; xff; xff; xff;
                 x00; x00; x00; x00; x01; x00; x02; x00; x09] Silent 0) =
      (Ok (record_text [x00; x00; x00; x00; x01; x00; x02; x00]),
       mkSerial [x09] Silent 6) /\
    record_text [x00; x00; x00; x00; x01; x00; x02; x00] =
      ts ++ [x2c] ++ v1 ++ [x2c] ++ v2 /\
    decimal_of (uint32_le x00 x00 x00 x00) ts /\
    decimal_of (uint16_le x01 x00) v1 /\
    decimal_of (uint16_le x02 x00) v2 /\
    record_text [x00; x00; x00; x00; x01; x00; x02; x00] =
      [x30; x2c; x31; x2c; x32].
Proof.
  apply (readRecord_text
           (mkSerial [x07; xff; xff; xff; xff;
                      x00; x00; x00; x00; x01; x00; x02; x00; x09] Silent 0)
           x00 x00 x00 x00 x01 x00 x02 x00 [x09] Silent 5).
  reflexivity.
Defined.

End DecodeFacts.

(* ================================================================== *)
(** ** Properties of the session driver *)
(* ================================================================== *)

Module SessionFacts.
Import Py PySerial Session Vocabulary SyncFacts DecodeFacts.

Lemma count_app (e : event) (a b : list event) :
  count e (a ++ b) = (count e a + count e b)%nat.
Proof.
  unfold count. rewrite filter_app, length_app. reflexivity.
Qed.

Lemma count_unit_events (e : event) (v : bool) (s : str) :
  count e (unit_events v s) = 0%nat.
Proof.
  destruct v, e; reflexivity.
Qed.

Lemma written_app (a b : list event) :
  written (a ++ b) = written a ++ written b.
Proof.
  induction a as [|ev a IH]; [reflexivity|].
  destruct ev; cbn [app written]; rewrite IH;
    [| | | rewrite app_assoc | |]; reflexivity.
Qed.

Section Generic.
Variable imports : list string.
Variable produce : io str.
Variable banner : list event.
Hypothesis banner_quiet : forall e, count e banner = 0%nat.

Lemma loop_step_ok fuel v ser s ser' :
  produce ser = (Ok s, ser') ->
  logging_loop imports produce (S fuel) v ser =
  emit (unit_events v s) (logging_loop imports produce fuel v ser').
Proof.
  intros H. cbn [logging_loop]. rewrite H. reflexivity.
Qed.

Lemma loop_step_raise fuel v ser x ser' :
  produce ser = (Raise x, ser') ->
  logging_loop imports produce (S fuel) v ser = handler imports x ser'.
Proof.
  intros H. cbn [logging_loop]. rewrite H. reflexivity.
Qed.

Lemma handler_quiet x ser e :
  count e (events (handler imports x ser)) = 0%nat.
Proof.
  unfold handler.
  destruct (is_SerialTimeoutException x); [destruct e; reflexivity|].
  destruct (is_Exception x); [|destruct e; reflexivity].
  destruct (format_exc imports); destruct e; reflexivity.
Qed.

Lemma handler_writes_nothing x ser :
  filter is_write (events (handler imports x ser)) = [].
Proof.
  unfold handler.
  destruct (is_SerialTimeoutException x); [reflexivity|].
  destruct (is_Exception x); [|reflexivity].
  destruct (format_exc imports); reflexivity.
Qed.

(** The loop touches neither [open] nor [close]. *)
Lemma loop_quiet fuel :
  forall v ser e,
    count e (events (logging_loop imports produce fuel v ser)) = 0%nat.
Proof.
  induction fuel as [|fuel IH]; intros v ser e;
    [destruct e; reflexivity|].
  cbn [logging_loop].
  destruct (produce ser) as [[s|x|] ser'].
  - cbn [emit events]. change ((if v then [Console (Text s)] else [])
                                 ++ [FileWrite s; FileWrite [x0a]])
      with (unit_events v s).
    rewrite count_app, count_unit_events, IH. reflexivity.
  - apply handler_quiet.
  - destruct e; reflexivity.
Qed.

Lemma main_discipline fuel cfg :
  handle_discipline (main imports produce banner fuel cfg).
Proof.
  unfold handle_discipline, main.
  destruct (opt_port cfg) as [|p name].
  { cbn [trace exit]. rewrite !banner_quiet.
    repeat split; try lia; discriminate. }
  destruct (port_open cfg) as [ser|x].
  2:{ destruct (is_IOError x); cbn [trace exit];
      rewrite ?count_app, !banner_quiet;
      repeat split; try (cbn; lia); discriminate. }
  destruct (file_open cfg) as [x|].
  { destruct (is_IOError x); cbn [trace exit];
      rewrite ?count_app, !banner_quiet;
      repeat split; try (cbn; lia); discriminate. }
  cbv zeta.
  destruct (status (logging_loop imports produce fuel (opt_verbose cfg) ser))
    as [[]|x|]; cbn [trace exit];
    rewrite ?count_app, !banner_quiet, !loop_quiet;
    repeat split; try (cbn; lia); try discriminate.
  eexists. rewrite !app_assoc.
  change [Console Closing; CloseFile] with ([Console Closing] ++ [CloseFile]).
  rewrite app_assoc. reflexivity.
Qed.
End Generic.


(** *** [serbinlog.py] *)

Lemma binlog_handler_status (x : exn) (ser : Serial) :
  status (handler SerbinlogMain.imports x ser) = ended_by x.
Proof. destruct x; reflexivity. Qed.

Lemma ended_by_truncated (e : port_end) :
  ended_by (truncated e) = ended_by (starved e).
Proof. destruct e; reflexivity. Qed.

Lemma ended_by_not_NoFuel (x : exn) : ended_by x <> NoFuel.
Proof. unfold ended_by. destruct (is_Exception x); discriminate. Qed.

(** The loop of [serbinlog.py] ends on every port: a bound larger than
    the number of bytes in flight is never used up. *)
Lemma binlog_loop_status (fuel : nat) :
  forall v s e n,
    (List.length s < fuel)%nat ->
    status (SerbinlogMain.logging_loop fuel v (mkSerial s e n)) =
    ended_by (starved e).
Proof.
  unfold SerbinlogMain.logging_loop.
  induction fuel as [|fuel IH]; intros v s e n Hf; [lia|].
  cbn [logging_loop]. rewrite readRecord_eq.
  destruct (first_occ s) as [i|].
  - destruct (Nat.leb 8 (List.length (skipn (i + 4) s))) eqn:E.
    + cbn [emit status]. apply IH.
      apply Nat.leb_le in E. rewrite !length_skipn in *. lia.
    + rewrite binlog_handler_status. apply ended_by_truncated.
  - apply binlog_handler_status.
Qed.

(** [main] of [serbinlog.py] returns, and so closes the file, on every
    port that falls silent or raises an [Exception]. *)
Lemma binlog_main_returns fuel v p name s e n :
  (List.length s < fuel)%nat ->
  is_Exception (starved e) = true ->
  exit (SerbinlogMain.main fuel
          (mkConfig v (p :: name) (inl (mkSerial s e n)) None)) = Ok tt.
Proof.
  intros Hf Hx. unfold SerbinlogMain.main, main.
  cbn [opt_port port_open file_open opt_verbose].
  pose proof (binlog_loop_status fuel v s e n Hf) as Hs.
  unfold SerbinlogMain.logging_loop in Hs. rewrite Hs.
  unfold ended_by. rewrite Hx. reflexivity.
Qed.

(** C5: when the start sequence has been matched and fewer than eight
    bytes follow before the port times out or fails, this turn of the
    loop is its last, whatever bound is given; it writes nothing to the
    file, and the [read(8)] that came back short is the last read made
    on the port. *)
Theorem partial_frame_writes_nothing
    (fuel : nat) (verbose : bool) (ser : Serial) (part : str)
    (e : port_end) (n : nat) :
  Serbinlog.waitForStart ser = (Ok tt, mkSerial part e n) ->
  (List.length part < 8)%nat ->
  status (SerbinlogMain.logging_loop (S fuel) verbose ser)
    = ended_by (truncated e) /\
  status (SerbinlogMain.logging_loop (S fuel) verbose ser) <> NoFuel /\
  filter is_write (events (SerbinlogMain.logging_loop (S fuel) verbose ser))
    = [] /\
  written (events (SerbinlogMain.logging_loop (S fuel) verbose ser)) = [] /\
  port (SerbinlogMain.logging_loop (S fuel) verbose ser)
    = mkSerial [] e (S n).
Proof.
  intros Hsync Hlen.
  assert (Hrec : Serbinlog.readRecord ser =
                 (Raise (truncated e), mkSerial [] e (S n))).
  { unfold Serbinlog.readRecord, bind. rewrite Hsync.
    unfold read. cbn [pending ending reads].
    destruct (Nat.leb 8 (List.length part)) eqn:E;
      [apply Nat.leb_le in E; lia|].
    destruct e as [|x]; [|reflexivity].
    unfold lift, unpack_LHH.
    destruct (Nat.eqb (List.length part) 8) eqn:E8;
      [apply Nat.eqb_eq in E8; lia | reflexivity]. }
  unfold SerbinlogMain.logging_loop.
  rewrite (loop_step_raise _ _ _ _ _ _ _ Hrec).
  rewrite binlog_handler_status.
  split; [reflexivity|]. split; [apply ended_by_not_NoFuel|].
  split; [apply handler_writes_nothing|].
  split; [|destruct e as [|[]]; reflexivity].
  destruct e as [|[]]; reflexivity.
Qed.

Lemma partial_frame_writes_nothing_witness :
  status (SerbinlogMain.logging_loop 3 true
            (mkSerial [x00; xff; xff; xff; xff; x01; x02; x03] Silent 0))
    = ended_by (truncated Silent) /\
  status (SerbinlogMain.logging_loop 3 true
            (mkSerial [x00; xff; xff; xff; xff; x01; x02; x03] Silent 0))
    <> NoFuel /\
  filter is_write
    (events (SerbinlogMain.logging_loop 3 true
               (mkSerial [x00; xff; xff; xff; xff; x01; x02; x03] Silent 0)))
    = [] /\
  written
    (events (SerbinlogMain.logging_loop 3 true
               (mkSerial [x00; xff; xff; xff; xff; x01; x02; x03] Silent 0)))
    = [] /\
  port (SerbinlogMain.logging_loop 3 true
          (mkSerial [x00; xff; xff; xff; xff; x01; x02; x03] Silent 0))
    = mkSerial [] Silent 6.
Proof.
  apply (partial_frame_writes_nothing 2 true
           (mkSerial [x00; xff; xff; xff; xff; x01; x02; x03] Silent 0)
           [x01; x02; x03] Silent 5).
  - reflexivity.
  - cbn. lia.
Defined.


(** *** [serlog.py] *)

Lemma split_line_none (s : str) : no_line_feed s -> split_line s = None.
Proof.
  unfold no_line_feed. induction s as [|b s IH]; intros H; [reflexivity|].
  cbn [split_line]. destruct (Byte.eqb b x0a) eqn:E.
  - apply byte_dec_bl in E. subst b. destruct H. left. reflexivity.
  - rewrite IH; [reflexivity|]. intros Hin. apply H. right. exact Hin.
Qed.

Lemma split_line_app (line rest : str) :
  no_line_feed line ->
  split_line (line ++ x0a :: rest) = Some (line ++ [x0a], rest).
Proof.
  unfold no_line_feed. induction line as [|b line IH]; intros H;
    [reflexivity|].
  cbn [app split_line]. destruct (Byte.eqb b x0a) eqn:E.
  - apply byte_dec_bl in E. subst b. destruct H. left. reflexivity.
  - rewrite IH; [reflexivity|]. intros Hin. apply H. right. exact Hin.
Qed.

Lemma serlog_handler_skips_traceback (x : exn) (ser : Serial) :
  is_Exception x = true -> is_SerialTimeoutException x = false ->
  handler Serlog.imports x ser =
  mkOutcome (Raise NameError) [Console (OtherException x)] ser.
Proof.
  intros H1 H2. unfold handler. rewrite H1, H2. reflexivity.
Qed.

(** C6, evaluated on [serlog.py]: when the port raises an exception
    other than [SerialTimeoutException] while a line is being read, the
    second [except] clause asks for [traceback], which the script does
    not import; [NameError] leaves [main] and the file that was opened
    is not closed. *)
Theorem serlog_exception_skips_close
    (fuel : nat) (v : bool) (p : byte) (name pend : str) (n : nat)
    (x : exn) :
  no_line_feed pend ->
  is_Exception x = true ->
  is_SerialTimeoutException x = false ->
  exit (Serlog.main (S fuel)
          (both_open v p name (mkSerial pend (Broken x) n)))
    = Raise NameError /\
  count OpenFile
    (trace (Serlog.main (S fuel)
              (both_open v p name (mkSerial pend (Broken x) n)))) = 1%nat /\
  count CloseFile
    (trace (Serlog.main (S fuel)
              (both_open v p name (mkSerial pend (Broken x) n)))) = 0%nat.
Proof.
  intros Hlf Hx Ht.
  assert (Hloop : logging_loop Serlog.imports Serlog.nextLine (S fuel) v
                    (mkSerial pend (Broken x) n) =
                  mkOutcome (Raise NameError) [Console (OtherException x)]
                    (mkSerial [] (Broken x) (S n))).
  { rewrite (loop_step_raise _ _ fuel v _ x (mkSerial [] (Broken x) (S n))).
    - apply serlog_handler_skips_traceback; assumption.
    - unfold Serlog.nextLine, bind, readline. cbn [pending ending reads].
      rewrite (split_line_none pend Hlf). reflexivity. }
  unfold Serlog.main, main, both_open.
  cbn [opt_port port_open file_open opt_verbose]. rewrite Hloop.
  repeat split.
Qed.

Lemma serlog_exception_skips_close_witness :
  exit (Serlog.main 5
          (both_open false x41 [] (mkSerial [x68; x69] (Broken SerialException) 0)))
    = Raise NameError /\
  count OpenFile
    (trace (Serlog.main 5
              (both_open false x41 []
                 (mkSerial [x68; x69] (Broken SerialException) 0)))) = 1%nat /\
  count CloseFile
    (trace (Serlog.main 5
              (both_open false x41 []
                 (mkSerial [x68; x69] (Broken SerialException) 0)))) = 0%nat.
Proof.
  apply (serlog_exception_skips_close 4 false x41 [] [x68; x69] 0
           SerialException).
  - intros [H|[H|[]]]; discriminate H.
  - reflexivity.
  - reflexivity.
Defined.

(** On the same port [serbinlog.py], which imports [traceback], leaves
    the loop and closes the file. *)
Example serbinlog_exception_closes :
  SerbinlogMain.main 5
    (both_open false x41 [] (mkSerial [x68; x69] (Broken SerialException) 0)) =
  mkRun (Ok tt)
    [Console (StartSeqIs 4); OpenPort; Console Receiving; OpenFile;
     Console Writing; Console (OtherException SerialException);
     Console Traceback; Console Closing; CloseFile].
Proof. reflexivity. Qed.

Lemma serlog_silent_loop (fuel : nat) :
  forall v n,
    status (Serlog.logging_loop fuel v (mkSerial [] Silent n)) = NoFuel /\
    written (events (Serlog.logging_loop fuel v (mkSerial [] Silent n)))
      = repeat x0a fuel.
Proof.
  unfold Serlog.logging_loop.
  induction fuel as [|fuel IH]; intros v n; [split; reflexivity|].
  rewrite (loop_step_ok _ _ fuel v _ [] (mkSerial [] Silent (S n)))
    by reflexivity.
  destruct (IH v (S n)) as [Hs Hw]. cbn [emit status events].
  rewrite written_app, Hw. split; [exact Hs|].
  destruct v; reflexivity.
Qed.

(** C9, evaluated on [serlog.py]: on a port that never delivers a byte
    every [readline] comes back empty after the timeout, no exception
    is raised, and each turn of the loop writes an empty line; whatever
    the bound, the loop has not ended, as many line feeds as turns are
    in the file and the file has not been closed. *)
Theorem serlog_silent_port_never_ends
    (fuel : nat) (v : bool) (p : byte) (name : str) (n : nat) :
  exit (Serlog.main fuel (both_open v p name (mkSerial [] Silent n)))
    = NoFuel /\
  written (trace (Serlog.main fuel
                    (both_open v p name (mkSerial [] Silent n))))
    = repeat x0a fuel /\
  count CloseFile
    (trace (Serlog.main fuel
              (both_open v p name (mkSerial [] Silent n)))) = 0%nat.
Proof.
  destruct (serlog_silent_loop fuel v n) as [Hs Hw].
  unfold Serlog.logging_loop in Hs, Hw.
  unfold Serlog.main, main, both_open.
  cbn [opt_port port_open file_open opt_verbose]. rewrite Hs.
  cbn [exit trace]. split; [reflexivity|]. split.
  - cbn [app written]. rewrite Hw. reflexivity.
  - rewrite !count_app, loop_quiet. reflexivity.
Qed.

(** On that port [serbinlog.py] writes nothing and closes the file, but
    through the clause for unexpected exceptions: [ord] of the empty
    string raises [TypeError]. *)
Example serbinlog_silent_port :
  SerbinlogMain.main 1 (both_open false x41 [] (mkSerial [] Silent 0)) =
  mkRun (Ok tt)
    [Console (StartSeqIs 4); OpenPort; Console Receiving; OpenFile;
     Console Writing; Console (OtherException TypeError); Console Traceback;
     Console Closing; CloseFile].
Proof. reflexivity. Qed.

(** Were a read to raise [SerialTimeoutException], the first [except]
    clause of either script would end the session with the file empty
    and closed. *)
Example raised_timeout_ends_cleanly :
  SerbinlogMain.main 1
    (both_open false x41 [] (mkSerial [] (Broken SerialTimeoutException) 0)) =
  mkRun (Ok tt)
    [Console (StartSeqIs 4); OpenPort; Console Receiving; OpenFile;
     Console Writing; Console TimedOut; Console Closing; CloseFile] /\
  Serlog.main 1
    (both_open false x41 [] (mkSerial [] (Broken SerialTimeoutException) 0)) =
  mkRun (Ok tt)
    [OpenPort; Console Receiving; OpenFile; Console Writing;
     Console TimedOut; Console Closing; CloseFile].
Proof. split; reflexivity. Qed.

(** *** Both scripts *)

(** C7 as stated fails: the port is opened and never closed. *)
Lemma port_is_never_closed :
  ~ opened_once_closed_once
      (trace (SerbinlogMain.main 1
                (both_open false x41 [] (mkSerial [] Silent 0)))).
Proof.
  intros (_ & _ & Hport & _). specialize (Hport eq_refl).
  discriminate Hport.
Qed.

(** C7, amended: in every session of either script the port and the
    file are each opened at most once; the port is never closed by the
    script; the file is closed at most once, and when [main] returns,
    that is when the loop was left through one of its [except] clauses,
    both were opened and the file was closed exactly once, as the last
    thing done. *)
Theorem session_handle_discipline (fuel : nat) (cfg : config) :
  handle_discipline (SerbinlogMain.main fuel cfg) /\
  handle_discipline (Serlog.main fuel cfg).
Proof.
  split; apply main_discipline; intros e; destruct e; reflexivity.
Qed.

Lemma session_handle_discipline_witness :
  exit (SerbinlogMain.main 1 (both_open false x41 [] (mkSerial [] Silent 0)))
    = Ok tt /\
  count CloseFile
    (trace (SerbinlogMain.main 1
              (both_open false x41 [] (mkSerial [] Silent 0)))) = 1%nat.
Proof.
  destruct (session_handle_discipline 1
              (both_open false x41 [] (mkSerial [] Silent 0)))
    as [(_ & _ & _ & _ & H) _].
  split; [reflexivity|]. apply H. reflexivity.
Defined.


(** *** The line copier *)

Lemma lstrip_split (s : str) :
  exists lead, s = lead ++ lstrip s /\ forallb isspace lead = true.
Proof.
  induction s as [|b s (lead & Hs & Hlead)].
  - exists []. split; reflexivity.
  - cbn [lstrip]. destruct (isspace b) eqn:E.
    + exists (b :: lead). cbn [app forallb]. rewrite E, Hlead, <- Hs.
      split; reflexivity.
    + exists []. split; reflexivity.
Qed.

Lemma lstrip_no_leading_space (s : str) : no_leading_space (lstrip s).
Proof.
  induction s as [|b s IH]; [exact I|].
  cbn [lstrip]. destruct (isspace b) eqn:E; [exact IH | exact E].
Qed.

Lemma forallb_rev {A : Type} (f : A -> bool) (l : list A) :
  forallb f l = true -> forallb f (rev l) = true.
Proof.
  rewrite !forallb_forall. intros H x Hx. apply H, in_rev, Hx.
Qed.

Lemma rstrip_split (s : str) :
  exists trail, s = rstrip s ++ trail /\ forallb isspace trail = true.
Proof.
  unfold rstrip. destruct (lstrip_split (rev s)) as (lead & Hs & Hlead).
  exists (rev lead). split; [|apply forallb_rev, Hlead].
  rewrite <- rev_app_distr, <- Hs, rev_involutive. reflexivity.
Qed.

Lemma rstrip_no_trailing_space (s : str) : no_trailing_space (rstrip s).
Proof.
  unfold no_trailing_space, rstrip. rewrite rev_involutive.
  apply lstrip_no_leading_space.
Qed.

Lemma rstrip_keeps_front (s : str) :
  no_leading_space s -> no_leading_space (rstrip s).
Proof.
  intros H. destruct (rstrip_split s) as (trail & Hs & _).
  destruct (rstrip s) as [|b t]; [exact I|].
  rewrite Hs in H. exact H.
Qed.

(** [s.strip()] takes the white space off both ends of [s] and nothing
    else. *)
Lemma strip_split (s : str) :
  exists lead trail,
    s = lead ++ strip s ++ trail /\
    forallb isspace lead = true /\ forallb isspace trail = true /\
    no_leading_space (strip s) /\ no_trailing_space (strip s).
Proof.
  destruct (lstrip_split s) as (lead & Hs & Hlead).
  destruct (rstrip_split (lstrip s)) as (trail & Ht & Htrail).
  exists lead, trail. unfold strip.
  split; [rewrite <- Ht; exact Hs|].
  split; [exact Hlead|]. split; [exact Htrail|].
  split; [apply rstrip_keeps_front, lstrip_no_leading_space
         | apply rstrip_no_trailing_space].
Qed.

(** C8 as stated fails: white space in front of a line is taken off as
    well, so the text written is not the line with only its end
    stripped. *)
Lemma leading_space_is_stripped_too :
  written (events (Serlog.logging_loop 1 false
                     (mkSerial [x20; x20; x68; x69; x0a] Silent 0)))
  <> rstripped_line [x20; x20; x68; x69; x0a].
Proof. discriminate. Qed.

(** C8, amended: for every input line the loop writes the line with the
    white space taken off both its ends, the line feed included, and
    then one line feed; what lies between is unchanged.  The line
    [hello world], two spaces, line feed is written as [hello world],
    line feed. *)
Theorem line_is_stripped_at_both_ends
    (fuel : nat) (v : bool) (line rest : str) (e : port_end) (n : nat) :
  no_line_feed line ->
  exists lead trail,
    Serlog.logging_loop (S fuel) v (mkSerial (line ++ x0a :: rest) e n) =
      emit (unit_events v (strip (line ++ [x0a])))
           (Serlog.logging_loop fuel v (mkSerial rest e (S n))) /\
    written (unit_events v (strip (line ++ [x0a]))) =
      strip (line ++ [x0a]) ++ [x0a] /\
    line ++ [x0a] = lead ++ strip (line ++ [x0a]) ++ trail /\
    forallb isspace lead = true /\ forallb isspace trail = true /\
    no_leading_space (strip (line ++ [x0a])) /\
    no_trailing_space (strip (line ++ [x0a])) /\
    strip (list_byte_of_string "hello world  " ++ [x0a]) =
      list_byte_of_string "hello world".
Proof.
  intros Hlf.
  destruct (strip_split (line ++ [x0a]))
    as (lead & trail & Hs & Hlead & Htrail & Hfront & Hback).
  exists lead, trail.
  split; [|split; [|split; [|split; [|split; [|split; [|split]]]]]];
    try assumption.
  - unfold Serlog.logging_loop. apply loop_step_ok.
    unfold Serlog.nextLine, bind, readline. cbn [pending ending reads].
    rewrite (split_line_app line rest Hlf). reflexivity.
  - destruct v; reflexivity.
  - reflexivity.
Qed.

Lemma line_is_stripped_at_both_ends_witness :
  exists lead trail,
    Serlog.logging_loop 2 false
      (mkSerial ([x09; x68; x69; x20] ++ x0a :: [x6f; x6b]) Silent 0) =
      emit (unit_events false (strip ([x09; x68; x69; x20] ++ [x0a])))
           (Serlog.logging_loop 1 false (mkSerial [x6f; x6b] Silent 1)) /\
    written (unit_events false (strip ([x09; x68; x69; x20] ++ [x0a]))) =
      strip ([x09; x68; x69; x20] ++ [x0a]) ++ [x0a] /\
    [x09; x68; x69; x20] ++ [x0a] =
      lead ++ strip ([x09; x68; x69; x20] ++ [x0a]) ++ trail /\
    forallb isspace lead = true /\ forallb isspace trail = true /\
    no_leading_space (strip ([x09; x68; x69; x20] ++ [x0a])) /\
    no_trailing_space (strip ([x09; x68; x69; x20] ++ [x0a])) /\
    strip (list_byte_of_string "hello world  " ++ [x0a]) =
      list_byte_of_string "hello world".
Proof.
  apply (line_is_stripped_at_both_ends 1 false [x09; x68; x69; x20]
           [x6f; x6b] Silent 0).
  intros [H|[H|[H|[H|[]]]]]; discriminate H.
Defined.

End SessionFacts.

(* ================================================================== *)
(** ** Further properties of the frame synchroniser *)
(* ================================================================== *)

Module SyncMore.
Import Py PySerial Serbinlog Vocabulary Streams SyncFacts.

Lemma skipn_nth_error {A : Type} (l : list A) :
  forall k x, nth_error l k = Some x -> skipn k l = x :: skipn (S k) l.
Proof.
  induction l as [|a l IH]; intros [|k] x H; try discriminate.
  - injection H as ->. reflexivity.
  - cbn [nth_error] in H. rewrite (skipn_cons k a l). rewrite (IH k x H).
    reflexivity.
Qed.

(** In state [k] a successful run of the loop first finishes the match
    under way or starts a new one; either way the bytes used up last
    spell the start sequence. *)
Lemma loop_sound (seq : list Z) (s : str) :
  forall fuel k e n ser',
    waitForStart_loop seq fuel k (mkSerial s e n) = (Ok tt, ser') ->
    exists pre m,
      s = pre ++ m ++ pending ser' /\ ending ser' = e /\
      reads ser' = (n + List.length pre + List.length m)%nat /\
      ((pre = [] /\ map byte_val m = skipn k seq) \/ map byte_val m = seq).
Proof.
  induction s as [|b t IH]; intros fuel k e n ser' H;
    (destruct fuel as [|fuel]; [discriminate H|]).
  - rewrite loop_nil in H. discriminate H.
  - rewrite loop_cons in H.
    destruct (nth_error seq k) as [x|] eqn:Hnth; [|discriminate H].
    destruct (byte_val b =? x) eqn:Eb; cbn [negb] in H.
    + apply Z.eqb_eq in Eb.
      destruct (Nat.eqb (S k) (List.length seq)) eqn:Ek.
      * injection H as <-. apply Nat.eqb_eq in Ek.
        exists [], [b]. cbn [pending ending reads app List.length map].
        repeat split; try lia. left. split; [reflexivity|].
        rewrite (skipn_nth_error seq k x Hnth), Ek, skipn_all, Eb.
        reflexivity.
      * destruct (IH fuel (S k) e (S n) ser' H)
          as (pre & m & Hs & He & Hr & [[Hpre Hm]|Hm]).
        -- subst pre. exists [], (b :: m). cbn [app List.length map] in *.
           repeat split; try assumption; try lia; [rewrite Hs; reflexivity|].
           left. split; [reflexivity|].
           rewrite (skipn_nth_error seq k x Hnth), Hm, Eb. reflexivity.
        -- exists (b :: pre), m. cbn [app List.length].
           repeat split; try assumption; try lia; [rewrite Hs; reflexivity|].
           right. exact Hm.
    + destruct (IH fuel 0%nat e (S n) ser' H)
        as (pre & m & Hs & He & Hr & Hm).
      exists (b :: pre), m. cbn [app List.length].
      repeat split; try assumption; try lia; [rewrite Hs; reflexivity|].
      right. destruct Hm as [[_ Hm]|Hm]; exact Hm.
Qed.

(** X1: whatever the start sequence, when [waitForStart] returns, the
    bytes it used up last are the start sequence, byte for byte: it never
    reports a start that is not in the stream; one read was made per byte
    used up. *)
Theorem waitForStart_seq_sound
    (seq : list Z) (s : str) (e : port_end) (n : nat) (ser' : Serial) :
  waitForStart_seq seq (mkSerial s e n) = (Ok tt, ser') ->
  exists pre m,
    s = pre ++ m ++ pending ser' /\
    map byte_val m = seq /\
    ending ser' = e /\
    reads ser' = (n + List.length pre + List.length m)%nat.
Proof.
  unfold waitForStart_seq. intros H.
  destruct (loop_sound seq s _ _ _ _ _ H) as (pre & m & Hs & He & Hr & Hm).
  exists pre, m. repeat split; try assumption.
  destruct Hm as [[_ Hm]|Hm]; exact Hm.
Qed.

Lemma waitForStart_seq_sound_witness :
  exists pre m,
    [x01; x01; x02; x01; x02; x03; x09] =
      pre ++ m ++ pending (mkSerial [x09] Silent 6) /\
    map byte_val m = [1; 2; 3] /\
    ending (mkSerial [x09] Silent 6) = Silent /\
    reads (mkSerial [x09] Silent 6) = (0 + List.length pre + List.length m)%nat.
Proof.
  apply (waitForStart_seq_sound [1; 2; 3]
           [x01; x01; x02; x01; x02; x03; x09] Silent 0
           (mkSerial [x09] Silent 6)).
  reflexivity.
Defined.

Lemma loop_fails_at_end (seq : list Z) (s : str) :
  forall fuel k e n x ser',
    (k < List.length seq)%nat ->
    waitForStart_loop seq fuel k (mkSerial s e n) = (Raise x, ser') ->
    x = starved e /\ ser' = mkSerial [] e (n + S (List.length s)).
Proof.
  induction s as [|b t IH]; intros fuel k e n x ser' Hk H;
    (destruct fuel as [|fuel]; [discriminate H|]).
  - rewrite loop_nil in H. injection H as <- <-.
    split; [reflexivity|]. cbn [List.length]. f_equal. lia.
  - rewrite loop_cons in H.
    destruct (nth_error seq k) as [y|] eqn:Hnth.
    2:{ apply nth_error_None in Hnth. lia. }
    assert (Hn : (S n + S (List.length t) = n + S (List.length (b :: t)))%nat)
      by (cbn [List.length]; lia).
    destruct (negb (byte_val b =? y)).
    + destruct (IH fuel 0%nat e (S n) x ser' ltac:(lia) H) as [Hx Hs].
      split; [exact Hx|]. rewrite Hs, Hn. reflexivity.
    + destruct (Nat.eqb (S k) (List.length seq)) eqn:Ek; [discriminate H|].
      apply Nat.eqb_neq in Ek.
      destruct (IH fuel (S k) e (S n) x ser' ltac:(lia) H) as [Hx Hs].
      split; [exact Hx|]. rewrite Hs, Hn. reflexivity.
Qed.

(** X2: with a start sequence that is not empty, [waitForStart] raises
    only when the stream is used up: the exception is the one of the
    starved read ([TypeError] from [ord] on a silent port, the port's own
    exception otherwise), every byte in flight has been read and one more
    read was made. *)
Theorem waitForStart_seq_fails_only_at_end
    (seq : list Z) (s : str) (e : port_end) (n : nat) (x : exn)
    (ser' : Serial) :
  seq <> [] ->
  waitForStart_seq seq (mkSerial s e n) = (Raise x, ser') ->
  x = starved e /\ ser' = mkSerial [] e (n + S (List.length s)).
Proof.
  intros Hseq H. unfold waitForStart_seq in H.
  eapply loop_fails_at_end; [|exact H].
  destruct seq; [contradiction | cbn; lia].
Qed.

Lemma waitForStart_seq_fails_only_at_end_witness :
  TypeError = starved Silent /\
  mkSerial [] Silent 4 = mkSerial [] Silent (0 + S (List.length [x01; x01; x02])).
Proof.
  apply (waitForStart_seq_fails_only_at_end [1; 2; 3] [x01; x01; x02]
           Silent 0 TypeError (mkSerial [] Silent 4)).
  - discriminate.
  - reflexivity.
Defined.

(** X3: on a stream without the four sentinel bytes in a row
    [waitForStart] reads every byte, one at a time, and then raises what
    the starved read raises; nothing is left on the port. *)
Theorem waitForStart_without_sentinel
    (s : str) (e : port_end) (n : nat) :
  (forall j, ~ occurs_at j s) ->
  waitForStart (mkSerial s e n) =
  (Raise (starved e), mkSerial [] e (n + S (List.length s))).
Proof.
  intros Hno. rewrite waitForStart_eq.
  destruct (first_occ s) as [i|] eqn:Hi; [|reflexivity].
  destruct (first_occ_sound s i Hi) as [Hocc _].
  destruct (Hno i Hocc).
Qed.

Lemma waitForStart_without_sentinel_witness :
  waitForStart (mkSerial [xff; xff; xff; x00; xff] Silent 0) =
  (Raise (starved Silent),
   mkSerial [] Silent (0 + S (List.length [xff; xff; xff; x00; xff]))).
Proof.
  apply (waitForStart_without_sentinel [xff; xff; xff; x00; xff] Silent 0).
  intros j Hj.
  destruct (first_occ_complete _ j Hj) as [i Hi]. discriminate Hi.
Defined.


Lemma retest_loop_agrees_constant (seq : list Z) (c : Z) (fuel : nat) :
  Forall (eq c) seq ->
  forall index ser,
    waitForStart_loop seq fuel index ser =
    waitForStart_retest_loop seq fuel index ser.
Proof.
  intros Hall. induction fuel as [|fuel IH]; intros index ser; [reflexivity|].
  cbn [waitForStart_loop waitForStart_retest_loop]. unfold bind.
  destruct (read 1 ser) as [[b|x|] ser']; try reflexivity.
  unfold lift at 1 4.
  destruct (ord b) as [data|x|]; try reflexivity.
  unfold lift, getitem.
  destruct (nth_error seq index) as [x|] eqn:Hnth; [|reflexivity].
  assert (Hx : x = c).
  { rewrite Forall_forall in Hall. symmetry.
    apply Hall, (nth_error_In seq index Hnth). }
  subst x.
  assert (Hfirst : nth_error seq 0 = Some c).
  { destruct seq as [|y seq]; [destruct index; discriminate Hnth|].
    inversion Hall; subst. reflexivity. }
  rewrite Hfirst.
  destruct (negb (data =? c)).
  - apply IH.
  - destruct (Nat.eqb (S index) (List.length seq)); [reflexivity | apply IH].
Qed.

(** X21: for every start sequence whose elements are all the same value,
    not only for the four [0xFF] of the script, dropping a mismatching
    byte and testing it again against the first element come to the
    same: the two loops give the same result and leave the same port on
    every input. *)
Theorem retest_agrees_on_constant_sequences
    (seq : list Z) (c : Z) (ser : Serial) :
  Forall (eq c) seq ->
  waitForStart_seq seq ser = waitForStart_retest_seq seq ser.
Proof.
  intros Hall. unfold waitForStart_seq, waitForStart_retest_seq.
  apply (retest_loop_agrees_constant seq c _ Hall).
Qed.

Lemma retest_agrees_on_constant_sequences_witness :
  waitForStart_seq [7; 7] (mkSerial [x07; x01; x07; x07; x02] Silent 0) =
  waitForStart_retest_seq [7; 7] (mkSerial [x07; x01; x07; x07; x02] Silent 0).
Proof.
  apply (retest_agrees_on_constant_sequences [7; 7] 7
           (mkSerial [x07; x01; x07; x07; x02] Silent 0)).
  repeat constructor.
Defined.

(** Bytes that spell the rest of the start sequence from the cursor on
    end the loop right behind them. *)
Lemma loop_match (seq : list Z) (m : str) :
  forall fuel k tail e n,
    (k < List.length seq)%nat ->
    map byte_val m = skipn k seq ->
    (List.length m <= fuel)%nat ->
    waitForStart_loop seq fuel k (mkSerial (m ++ tail) e n) =
    (Ok tt, mkSerial tail e (n + List.length m)).
Proof.
  induction m as [|b m IH]; intros fuel k tail e n Hk Hm Hf.
  - exfalso. apply (f_equal (@List.length Z)) in Hm.
    rewrite length_skipn in Hm. cbn in Hm. lia.
  - destruct fuel as [|fuel]; [cbn in Hf; lia|].
    cbn [List.length] in Hf. cbn [app map] in *.
    destruct (nth_error seq k) as [x|] eqn:Hnth.
    2:{ apply nth_error_None in Hnth. lia. }
    rewrite (skipn_nth_error seq k x Hnth) in Hm. injection Hm as Hb Hm.
    change (match seq with [] => [] | _ :: l => skipn k l end)
      with (skipn (S k) seq) in Hm.
    rewrite loop_cons, Hnth, Hb, Z.eqb_refl. cbn [negb].
    destruct (Nat.eqb (S k) (List.length seq)) eqn:Ek.
    + apply Nat.eqb_eq in Ek. rewrite Ek, skipn_all in Hm.
      destruct m; [|discriminate Hm]. cbn [app List.length].
      do 2 f_equal. lia.
    + apply Nat.eqb_neq in Ek. rewrite (IH fuel (S k)); try assumption; try lia.
      cbn [List.length]. do 2 f_equal. lia.
Qed.

(** C4: when the byte just read differs from [seq[index]], the byte is
    used up, the cursor goes back to 0 and matching starts again at the
    next byte: the loop goes on as a fresh loop on the bytes behind it; it
    comes to an end; if it returns, the start sequence it found lies, in
    full, in the bytes behind the mismatching byte, so that this byte was
    not tested against [seq[0]] and what had been matched before it is
    lost; if it raises, every byte was read and the read after the last
    one starved; and if the bytes behind the mismatching byte begin with
    the start sequence, the loop returns right behind it. *)
Theorem mismatch_drops_byte_and_resets
    (seq : list Z) (fuel index : nat) (b : byte) (rest : str)
    (e : port_end) (n : nat) (expected : Z) :
  nth_error seq index = Some expected ->
  byte_val b <> expected ->
  (List.length rest < fuel)%nat ->
  waitForStart_loop seq (S fuel) index (mkSerial (b :: rest) e n) =
    waitForStart_loop seq fuel 0 (mkSerial rest e (S n)) /\
  fst (waitForStart_loop seq (S fuel) index (mkSerial (b :: rest) e n))
    <> NoFuel /\
  (forall ser',
      waitForStart_loop seq (S fuel) index (mkSerial (b :: rest) e n)
        = (Ok tt, ser') ->
      exists pre m,
        rest = pre ++ m ++ pending ser' /\
        map byte_val m = seq /\
        reads ser' = (S n + List.length pre + List.length m)%nat) /\
  (forall x ser',
      waitForStart_loop seq (S fuel) index (mkSerial (b :: rest) e n)
        = (Raise x, ser') ->
      x = starved e /\ ser' = mkSerial [] e (S n + S (List.length rest))) /\
  (forall m tail,
      rest = m ++ tail -> map byte_val m = seq ->
      waitForStart_loop seq (S fuel) index (mkSerial (b :: rest) e n)
        = (Ok tt, mkSerial tail e (S n + List.length m))).
Proof.
  intros Hnth Hne Hf.
  assert (Hlen : (0 < List.length seq)%nat).
  { destruct seq; [destruct index; discriminate Hnth | cbn; lia]. }
  assert (Hstep : waitForStart_loop seq (S fuel) index (mkSerial (b :: rest) e n)
                  = waitForStart_loop seq fuel 0 (mkSerial rest e (S n))).
  { rewrite loop_cons, Hnth. apply Z.eqb_neq in Hne. rewrite Hne.
    reflexivity. }
  rewrite Hstep. split; [reflexivity|]. split; [|split; [|split]].
  - apply waitForStart_loop_terminates. exact Hf.
  - intros ser' H.
    destruct (loop_sound seq rest _ _ _ _ _ H)
      as (pre & m & Hs & _ & Hr & Hm).
    exists pre, m. split; [exact Hs|]. split; [|exact Hr].
    destruct Hm as [[_ Hm]|Hm]; exact Hm.
  - intros x ser' H. exact (loop_fails_at_end seq rest _ _ _ _ _ _ Hlen H).
  - intros m tail -> Hm. apply loop_match; [exact Hlen | exact Hm |].
    rewrite length_app in Hf. lia.
Qed.

Lemma mismatch_drops_byte_and_resets_witness :
  waitForStart_loop [1; 2] 6 1 (mkSerial [x01; x02; x01; x02; x07] Silent 1) =
    waitForStart_loop [1; 2] 5 0 (mkSerial [x02; x01; x02; x07] Silent 2) /\
  fst (waitForStart_loop [1; 2] 6 1
         (mkSerial [x01; x02; x01; x02; x07] Silent 1)) <> NoFuel /\
  (forall ser',
      waitForStart_loop [1; 2] 6 1
        (mkSerial [x01; x02; x01; x02; x07] Silent 1) = (Ok tt, ser') ->
      exists pre m,
        [x02; x01; x02; x07] = pre ++ m ++ pending ser' /\
        map byte_val m = [1; 2] /\
        reads ser' = (2 + List.length pre + List.length m)%nat) /\
  (forall x ser',
      waitForStart_loop [1; 2] 6 1
        (mkSerial [x01; x02; x01; x02; x07] Silent 1) = (Raise x, ser') ->
      x = starved Silent /\
      ser' = mkSerial [] Silent (2 + S (List.length [x02; x01; x02; x07]))) /\
  (forall m tail,
      [x02; x01; x02; x07] = m ++ tail -> map byte_val m = [1; 2] ->
      waitForStart_loop [1; 2] 6 1
        (mkSerial [x01; x02; x01; x02; x07] Silent 1)
        = (Ok tt, mkSerial tail Silent (2 + List.length m))).
Proof.
  apply (mismatch_drops_byte_and_resets
           [1; 2] 5 1 x01 [x02; x01; x02; x07] Silent 1 2).
  - reflexivity.
  - cbn. lia.
  - cbn. lia.
Defined.

(** On the stream of the witness the sequence [1, 2] lies at the
    mismatching byte itself; the loop passes it and stops behind the next
    one, four bytes on. *)
Example mismatch_passes_an_occurrence :
  waitForStart_loop [1; 2] 6 1 (mkSerial [x01; x02; x01; x02; x07] Silent 1)
  = (Ok tt, mkSerial [x07] Silent 5).
Proof. reflexivity. Qed.

End SyncMore.

(* ================================================================== *)
(** ** Further properties of the record decoder *)
(* ================================================================== *)

Module DecodeMore.
Import Py PySerial Serbinlog Vocabulary Streams SyncFacts DecodeFacts.

Lemma first_occ_at_sentinel (tail : str) :
  first_occ (sentinel ++ tail) = Some 0%nat.
Proof.
  unfold sentinel. cbn [app first_occ firstn].
  destruct (list_eq_dec byte_eq_dec [xff; xff; xff; xff] [xff; xff; xff; xff])
    as [_|N]; [reflexivity | destruct N; reflexivity].
Qed.

Lemma skipn_length_app {A : Type} (a b : list A) :
  skipn (List.length a) (a ++ b) = b.
Proof.
  rewrite skipn_app, skipn_all, Nat.sub_diag. reflexivity.
Qed.

Lemma firstn_length_app {A : Type} (a b : list A) :
  firstn (List.length a) (a ++ b) = a.
Proof.
  rewrite firstn_app, firstn_all, Nat.sub_diag, app_nil_r. reflexivity.
Qed.

(** Bytes without a sentinel among them, the last of which is not
    [0xFF], do not hide the sentinel that follows. *)
Lemma first_occ_after_garbage (g tail : str) :
  (forall j, ~ occurs_at j g) ->
  last g x00 <> xff ->
  first_occ (g ++ sentinel ++ tail) = Some (List.length g).
Proof.
  induction g as [|b g IH]; intros Hno Hlast.
  - apply first_occ_at_sentinel.
  - cbn [app first_occ].
    destruct (list_eq_dec byte_eq_dec
                (firstn 4 (b :: g ++ sentinel ++ tail)) sentinel) as [E|_].
    + exfalso. unfold sentinel in E.
      destruct g as [|c [|d [|e' g']]]; cbn in E, Hlast.
      * injection E as ->. apply Hlast. reflexivity.
      * injection E as _ ->. apply Hlast. reflexivity.
      * injection E as _ _ ->. apply Hlast. reflexivity.
      * apply (Hno 0%nat). exact E.
    + rewrite IH; [reflexivity | |].
      * intros j Hj. apply (Hno (S j)). exact Hj.
      * destruct g as [|c g]; [discriminate | exact Hlast].
Qed.

(** X4: bytes in front of a frame are skipped and the frame behind them
    is decoded as sent, provided these bytes do not hold the four
    sentinel bytes in a row and do not end in [0xFF]; the port is left
    behind the payload. *)
Theorem garbage_before_frame_is_skipped
    (g p rest : str) (e : port_end) (n : nat) :
  (forall j, ~ occurs_at j g) ->
  last g x00 <> xff ->
  List.length p = 8%nat ->
  readRecord (mkSerial (g ++ sentinel ++ p ++ rest) e n) =
  (Ok (record_text p), mkSerial rest e (n + List.length g + 5)).
Proof.
  intros Hno Hlast Hp.
  rewrite readRecord_eq, (first_occ_after_garbage g _ Hno Hlast).
  assert (Hskip : skipn (List.length g + 4) (g ++ sentinel ++ p ++ rest)
                  = p ++ rest).
  { rewrite Nat.add_comm, <- skipn_skipn, skipn_length_app. reflexivity. }
  rewrite Hskip, length_app, Hp. cbn [Nat.add Nat.leb].
  rewrite <- Hp, firstn_length_app, skipn_length_app.
  do 2 f_equal. lia.
Qed.

Lemma garbage_before_frame_is_skipped_witness :
  readRecord
    (mkSerial ([xff; xff; xff; x07] ++ sentinel
                 ++ [x01; x00; x00; x00; x02; x00; x03; x00] ++ [x2a])
              Silent 0) =
  (Ok (record_text [x01; x00; x00; x00; x02; x00; x03; x00]),
   mkSerial [x2a] Silent (0 + List.length [xff; xff; xff; x07] + 5)).
Proof.
  apply (garbage_before_frame_is_skipped [xff; xff; xff; x07]
           [x01; x00; x00; x00; x02; x00; x03; x00] [x2a] Silent 0).
  - intros j Hj. destruct (first_occ_complete _ j Hj) as [i Hi].
    discriminate Hi.
  - discriminate.
  - reflexivity.
Defined.

Lemma run_before_sentinel (k : nat) :
  repeat xff k ++ sentinel = sentinel ++ repeat xff k.
Proof.
  change sentinel with (repeat xff 4).
  rewrite <- !repeat_app. f_equal. lia.
Qed.

(** X5: when [k] bytes [0xFF] come just before the start sequence, the
    first four bytes of the run are taken for the start sequence, and
    the payload that is decoded begins [k] bytes early: it is made of the
    last [k] bytes of the run and of the bytes behind it. *)
Theorem ff_before_frame_shifts_payload
    (k : nat) (tail : str) (e : port_end) (n : nat) :
  (8 <= k + List.length tail)%nat ->
  readRecord (mkSerial (repeat xff k ++ sentinel ++ tail) e n) =
  (Ok (record_text (firstn 8 (repeat xff k ++ tail))),
   mkSerial (skipn 8 (repeat xff k ++ tail)) e (n + 5)).
Proof.
  intros Hlen.
  rewrite app_assoc, run_before_sentinel, <- app_assoc.
  rewrite readRecord_eq, first_occ_at_sentinel.
  change (skipn (0 + 4) (sentinel ++ repeat xff k ++ tail))
    with (repeat xff k ++ tail).
  rewrite length_app, repeat_length.
  destruct (Nat.leb 8 (k + List.length tail)) eqn:E;
    [|apply Nat.leb_gt in E; lia].
  do 2 f_equal. lia.
Qed.

Lemma ff_before_frame_shifts_payload_witness :
  readRecord
    (mkSerial (repeat xff 1 ++ sentinel
                 ++ [x01; x00; x00; x00; x02; x00; x03; x00]) Silent 0) =
  (Ok (record_text
         (firstn 8 (repeat xff 1 ++ [x01; x00; x00; x00; x02; x00; x03; x00]))),
   mkSerial
     (skipn 8 (repeat xff 1 ++ [x01; x00; x00; x00; x02; x00; x03; x00]))
     Silent (0 + 5)).
Proof.
  apply (ff_before_frame_shifts_payload 1
           [x01; x00; x00; x00; x02; x00; x03; x00] Silent 0).
  cbn. lia.
Defined.

(** X6: [readRecord] returns a text only when a whole frame was there:
    the text is that of the eight bytes behind the first sentinel of the
    stream, the port is left twelve bytes behind the start of that
    sentinel, and one read per skipped or sentinel byte plus one read for
    the payload was made. *)
Theorem readRecord_success_needs_full_frame
    (s : str) (e : port_end) (n : nat) (text : str) (ser' : Serial) :
  readRecord (mkSerial s e n) = (Ok text, ser') ->
  exists i,
    occurs_at i s /\
    (forall j, occurs_at j s -> (i <= j)%nat) /\
    (i + 12 <= List.length s)%nat /\
    text = record_text (firstn 8 (skipn (i + 4) s)) /\
    ser' = mkSerial (skipn (i + 12) s) e (n + i + 5).
Proof.
  rewrite readRecord_eq. intros H.
  destruct (first_occ s) as [i|] eqn:Hi; [|discriminate H].
  destruct (first_occ_sound s i Hi) as [Hocc Hmin].
  destruct (Nat.leb 8 (List.length (skipn (i + 4) s))) eqn:E;
    [|discriminate H].
  apply Nat.leb_le in E. rewrite length_skipn in E.
  injection H as <- <-. exists i.
  split; [exact Hocc|]. split; [exact Hmin|]. split; [lia|].
  split; [reflexivity|].
  replace (skipn (i + 12) s) with (skipn 8 (skipn (i + 4) s))
    by (rewrite skipn_skipn; f_equal; lia).
  replace (n + i + 5)%nat with (S (n + (i + 4))) by lia.
  reflexivity.
Qed.

Lemma readRecord_success_needs_full_frame_witness :
  exists i,
    occurs_at i [x07; xff; xff; xff; xff; x00; x00; x00; x00; x01; x00; x02;
                 x00; x09] /\
    (forall j,
        occurs_at j [x07; xff; xff; xff; xff; x00; x00; x00; x00; x01; x00;
                     x02; x00; x09] -> (i <= j)%nat) /\
    (i + 12 <=
     List.length [x07; xff; xff; xff; xff; x00; x00; x00; x00; x01; x00; x02;
                  x00; x09])%nat /\
    [x30; x2c; x31; x2c; x32] =
      record_text
        (firstn 8
           (skipn (i + 4)
              [x07; xff; xff; xff; xff; x00; x00; x00; x00; x01; x00; x02;
               x00; x09])) /\
    mkSerial [x09] Silent 6 =
      mkSerial
        (skipn (i + 12)
           [x07; xff; xff; xff; xff; x00; x00; x00; x00; x01; x00; x02; x00;
            x09]) Silent (0 + i + 5).
Proof.
  apply (readRecord_success_needs_full_frame
           [x07; xff; xff; xff; xff; x00; x00; x00; x00; x01; x00; x02; x00;
            x09] Silent 0 [x30; x2c; x31; x2c; x32] (mkSerial [x09] Silent 6)).
  reflexivity.
Defined.


(** *** The text of a record *)

Lemma is_digit_record_char (l : str) :
  forallb is_digit l = true -> forallb is_record_char l = true.
Proof.
  rewrite !forallb_forall. intros H b Hb. unfold is_record_char.
  rewrite (H b Hb). reflexivity.
Qed.

Lemma digits_have_no_comma (l : str) :
  forallb is_digit l = true -> count_occ byte_eq_dec l x2c = 0%nat.
Proof.
  intros H. apply count_occ_not_In. intros Hin.
  rewrite forallb_forall in H. specialize (H x2c Hin). discriminate H.
Qed.

Lemma record_text_fields (data : str) :
  exists ts v1 v2 : str,
    record_text data = ts ++ [x2c] ++ v1 ++ [x2c] ++ v2 /\
    decimal_of (le_uint (firstn 4 data)) ts /\
    decimal_of (le_uint (firstn 2 (skipn 4 data))) v1 /\
    decimal_of (le_uint (firstn 2 (skipn 6 data))) v2.
Proof.
  eexists _, _, _. split; [reflexivity|].
  repeat apply conj; apply format_d_decimal, le_uint_range.
Qed.

(** X7: the text of a record is made of decimal digits and of exactly
    two commas; it holds no line feed, so every record takes one line of
    the file. *)
Theorem record_text_is_one_line (data : str) :
  forallb is_record_char (record_text data) = true /\
  count_occ byte_eq_dec (record_text data) x2c = 2%nat /\
  ~ In x0a (record_text data).
Proof.
  destruct (record_text_fields data)
    as (ts & v1 & v2 & -> & (_ & Hts & _) & (_ & Hv1 & _) & (_ & Hv2 & _)).
  assert (Hall : forallb is_record_char (ts ++ [x2c] ++ v1 ++ [x2c] ++ v2)
                 = true).
  { rewrite !forallb_app, (is_digit_record_char ts Hts),
      (is_digit_record_char v1 Hv1), (is_digit_record_char v2 Hv2).
    reflexivity. }
  split; [exact Hall|]. split.
  - rewrite !count_occ_app, (digits_have_no_comma ts Hts),
      (digits_have_no_comma v1 Hv1), (digits_have_no_comma v2 Hv2).
    reflexivity.
  - intros Hin. rewrite forallb_forall in Hall. specialize (Hall x0a Hin).
    discriminate Hall.
Qed.

Lemma digits_loop_length (fuel : nat) :
  forall n acc k,
    (1 <= k)%nat -> 0 <= n < 10 ^ Z.of_nat k ->
    (List.length (digits_loop fuel n acc) <= k + List.length acc)%nat.
Proof.
  induction fuel as [|fuel IH]; intros n acc k Hk Hn; [cbn; lia|].
  cbn [digits_loop].
  destruct (n / 10 =? 0) eqn:Eq; [cbn [List.length]; lia|].
  apply Z.eqb_neq in Eq.
  destruct k as [|[|k]]; [lia | |].
  - exfalso. apply Eq. apply Z.div_small. cbn in Hn. lia.
  - specialize (IH (n / 10) (digit_char (n mod 10) :: acc) (S k)).
    cbn [List.length] in IH.
    assert (Hq : 0 <= n / 10 < 10 ^ Z.of_nat (S k)).
    { rewrite (Nat2Z.inj_succ (S k)), Z.pow_succ_r in Hn by lia.
      split; [apply Z.div_pos; lia | apply Z.div_lt_upper_bound; lia]. }
    specialize (IH ltac:(lia) Hq). lia.
Qed.

Lemma format_d_length (n : Z) (k : nat) :
  (1 <= k)%nat -> 0 <= n < 10 ^ Z.of_nat k ->
  (1 <= List.length (format_d n) <= k)%nat.
Proof.
  intros Hk Hn. split.
  - destruct (format_d_decimal n ltac:(lia)) as (Hne & _).
    destruct (format_d n); [contradiction | cbn; lia].
  - unfold format_d. destruct (n <? 0) eqn:E; [apply Z.ltb_lt in E; lia|].
    unfold digits.
    pose proof (digits_loop_length (S (Z.to_nat (Z.log2 n))) n [] k Hk Hn)
      as H.
    cbn [List.length] in H. lia.
Qed.

(** X8: the line written for a frame is between 5 and 22 bytes long,
    whatever the eight payload bytes are: at most ten digits for the
    timestamp and five for each of the two values. *)
Theorem record_text_length (b0 b1 b2 b3 b4 b5 b6 b7 : byte) :
  (5 <= List.length (record_text [b0; b1; b2; b3; b4; b5; b6; b7]) <= 22)%nat.
Proof.
  unfold record_text, format_ddd. cbn [firstn skipn].
  pose proof (le_uint_range [b0; b1; b2; b3]) as Hts.
  pose proof (le_uint_range [b4; b5]) as Hv1.
  pose proof (le_uint_range [b6; b7]) as Hv2.
  cbn [List.length] in Hts, Hv1, Hv2.
  pose proof (format_d_length (le_uint [b0; b1; b2; b3]) 10 ltac:(lia)) as Lts.
  pose proof (format_d_length (le_uint [b4; b5]) 5 ltac:(lia)) as Lv1.
  pose proof (format_d_length (le_uint [b6; b7]) 5 ltac:(lia)) as Lv2.
  change (256 ^ Z.of_nat 4) with 4294967296 in Hts.
  change (256 ^ Z.of_nat 2) with 65536 in Hv1, Hv2.
  change (10 ^ Z.of_nat 10) with 10000000000 in Lts.
  change (10 ^ Z.of_nat 5) with 100000 in Lv1, Lv2.
  specialize (Lts ltac:(lia)). specialize (Lv1 ltac:(lia)).
  specialize (Lv2 ltac:(lia)).
  rewrite !length_app. cbn [List.length]. lia.
Qed.

Lemma digits_split_unique (a : str) :
  forall a' r r',
    forallb is_digit a = true -> forallb is_digit a' = true ->
    a ++ x2c :: r = a' ++ x2c :: r' -> a = a' /\ r = r'.
Proof.
  induction a as [|c a IH]; intros [|c' a'] r r' Ha Ha' H;
    cbn [app forallb] in *.
  - injection H as ->. split; reflexivity.
  - injection H as <- _. discriminate Ha'.
  - injection H as -> _. discriminate Ha.
  - injection H as -> H.
    apply andb_prop in Ha, Ha'. destruct Ha as [_ Ha], Ha' as [_ Ha'].
    destruct (IH a' r r' Ha Ha' H) as [-> ->]. split; reflexivity.
Qed.

Lemma format_d_inj (n m : Z) :
  0 <= n -> 0 <= m -> format_d n = format_d m -> n = m.
Proof.
  intros Hn Hm H.
  destruct (format_d_decimal n Hn) as (_ & _ & _ & Vn).
  destruct (format_d_decimal m Hm) as (_ & _ & _ & Vm).
  rewrite <- Vn, <- Vm, H. reflexivity.
Qed.

Lemma le_uint_inj (a b : str) :
  List.length a = List.length b -> le_uint a = le_uint b -> a = b.
Proof.
  intros Hl Hv.
  rewrite <- (le_bytes_le_uint a), <- (le_bytes_le_uint b), Hl, Hv.
  reflexivity.
Qed.

(** X9: the line written for a frame determines its payload: two
    payloads of eight bytes with the same text are the same bytes, so
    nothing of a frame is lost in the file. *)
Theorem record_text_injective
    (b0 b1 b2 b3 b4 b5 b6 b7 c0 c1 c2 c3 c4 c5 c6 c7 : byte) :
  record_text [b0; b1; b2; b3; b4; b5; b6; b7] =
  record_text [c0; c1; c2; c3; c4; c5; c6; c7] ->
  [b0; b1; b2; b3; b4; b5; b6; b7] = [c0; c1; c2; c3; c4; c5; c6; c7].
Proof.
  unfold record_text, format_ddd. cbn [firstn skipn app]. intros H.
  pose proof (le_uint_range [b0; b1; b2; b3]) as [Bts _].
  pose proof (le_uint_range [b4; b5]) as [Bv1 _].
  pose proof (le_uint_range [b6; b7]) as [Bv2 _].
  pose proof (le_uint_range [c0; c1; c2; c3]) as [Cts _].
  pose proof (le_uint_range [c4; c5]) as [Cv1 _].
  pose proof (le_uint_range [c6; c7]) as [Cv2 _].
  assert (Hdig : forall n, 0 <= n -> forallb is_digit (format_d n) = true).
  { intros n Hn. destruct (format_d_decimal n Hn) as (_ & Hd & _). exact Hd. }
  apply digits_split_unique in H; [|apply Hdig; assumption ..].
  destruct H as [Hts H].
  apply digits_split_unique in H; [|apply Hdig; assumption ..].
  destruct H as [Hv1 Hv2].
  apply format_d_inj in Hts, Hv1, Hv2; try assumption.
  apply le_uint_inj in Hts, Hv1, Hv2; try reflexivity.
  congruence.
Qed.

Lemma record_text_injective_witness :
  [x01; x02; x03; x04; x05; x06; x07; x08] =
  [x01; x02; x03; x04; x05; x06; x07; x08].
Proof.
  apply (record_text_injective x01 x02 x03 x04 x05 x06 x07 x08
           x01 x02 x03 x04 x05 x06 x07 x08).
  reflexivity.
Defined.


(** A frame at the head of the stream. *)
Lemma readRecord_frame (p rest : str) (e : port_end) (n : nat) :
  List.length p = 8%nat ->
  readRecord (mkSerial (sentinel ++ p ++ rest) e n) =
  (Ok (record_text p), mkSerial rest e (n + 5)).
Proof.
  intros Hp. rewrite readRecord_eq, first_occ_at_sentinel.
  change (skipn (0 + 4) (sentinel ++ p ++ rest)) with (p ++ rest).
  rewrite length_app, Hp. cbn [Nat.add Nat.leb].
  rewrite <- Hp, firstn_length_app, skipn_length_app.
  do 2 f_equal. lia.
Qed.

End DecodeMore.

(* ================================================================== *)
(** ** Further properties of the sessions *)
(* ================================================================== *)

Module SessionMore.
Import Py PySerial Session Vocabulary Streams SyncFacts DecodeFacts.
Import SessionFacts DecodeMore.

Lemma emit_nil (o : outcome) : emit [] o = o.
Proof. destruct o. reflexivity. Qed.

Lemma emit_emit (a b : list event) (o : outcome) :
  emit a (emit b o) = emit (a ++ b) o.
Proof. unfold emit. cbn [status events port]. rewrite app_assoc. reflexivity. Qed.

Lemma written_unit_events (v : bool) (s : str) :
  written (unit_events v s) = s ++ [x0a].
Proof. destruct v; reflexivity. Qed.

Lemma written_units (v : bool) (f : str -> str) (l : list str) :
  written (flat_map (fun p => unit_events v (f p)) l) =
  flat_map (fun p => f p ++ [x0a]) l.
Proof.
  induction l as [|p l IH]; [reflexivity|].
  cbn [flat_map]. rewrite written_app, written_unit_events, IH. reflexivity.
Qed.

(** The loop of [serbinlog.py] takes the frames at the head of the
    stream one by one and goes on with what follows them. *)
Lemma binlog_loop_frames (ps : list str) :
  forall fuel v tail e n,
    Forall (fun p => List.length p = 8%nat) ps ->
    SerbinlogMain.logging_loop (List.length ps + fuel) v
      (mkSerial (frames ps ++ tail) e n) =
    emit (flat_map (fun p => unit_events v (record_text p)) ps)
         (SerbinlogMain.logging_loop fuel v
            (mkSerial tail e (n + 5 * List.length ps))).
Proof.
  unfold SerbinlogMain.logging_loop.
  induction ps as [|p ps IH]; intros fuel v tail e n Hall.
  - cbn [frames flat_map app List.length Nat.add Nat.mul].
    rewrite emit_nil, Nat.add_0_r. reflexivity.
  - inversion Hall as [|? ? Hp Hps]; subst.
    cbn [frames flat_map List.length Nat.add]. rewrite <- !app_assoc.
    rewrite (loop_step_ok _ _ _ v _ (record_text p)
               (mkSerial (flat_map (fun q => sentinel ++ q) ps ++ tail) e (n + 5)))
      by (apply readRecord_frame; exact Hp).
    change (flat_map (fun q => sentinel ++ q) ps) with (frames ps).
    rewrite (IH fuel v tail e (n + 5)%nat Hps), emit_emit.
    do 3 f_equal. lia.
Qed.

(** X10: a stream of frames, each a start sequence and eight bytes, is
    logged frame by frame: [serbinlog.py] writes one line per frame, in
    the order received, each closed by one line feed and nothing else;
    when the port then falls silent or raises an [Exception], [main]
    returns and the file is closed once. *)
Theorem serbinlog_logs_frames_in_order
    (ps : list str) (fuel : nat) (v : bool) (p : byte) (name : str)
    (e : port_end) (n : nat) :
  Forall (fun q => List.length q = 8%nat) ps ->
  (List.length ps < fuel)%nat ->
  is_Exception (starved e) = true ->
  exit (SerbinlogMain.main fuel (both_open v p name (mkSerial (frames ps) e n)))
    = Ok tt /\
  written
    (trace (SerbinlogMain.main fuel
              (both_open v p name (mkSerial (frames ps) e n))))
    = flat_map (fun q => record_text q ++ [x0a]) ps /\
  count CloseFile
    (trace (SerbinlogMain.main fuel
              (both_open v p name (mkSerial (frames ps) e n)))) = 1%nat.
Proof.
  intros Hall Hfuel Hx.
  destruct fuel as [|fuel]; [lia|].
  assert (Hloop : logging_loop SerbinlogMain.imports Serbinlog.readRecord
                    (S fuel) v (mkSerial (frames ps) e n) =
                  emit (flat_map (fun q => unit_events v (record_text q)) ps)
                       (handler SerbinlogMain.imports (starved e)
                          (mkSerial [] e (n + 5 * List.length ps + 1)))).
  { pose proof (binlog_loop_frames ps (S fuel - List.length ps) v [] e n Hall)
      as H.
    unfold SerbinlogMain.logging_loop in H.
    rewrite app_nil_r in H.
    replace (List.length ps + (S fuel - List.length ps))%nat with (S fuel)
      in H by lia.
    rewrite H. f_equal.
    replace (S fuel - List.length ps)%nat with (S (fuel - List.length ps))
      by lia.
    apply loop_step_raise.
    rewrite readRecord_eq. cbn [first_occ List.length].
    do 2 f_equal; lia. }
  unfold SerbinlogMain.main, main, both_open.
  cbn [opt_port port_open file_open opt_verbose]. rewrite Hloop.
  cbn [emit status events]. rewrite binlog_handler_status.
  unfold ended_by. rewrite Hx. cbn [exit trace].
  split; [reflexivity|]. split.
  - rewrite !written_app. cbn [written].
    rewrite (written_units v record_text ps).
    change (written SerbinlogMain.banner) with (@nil byte).
    assert (Hw : forall t, filter is_write t = [] -> written t = []).
    { induction t as [|ev t IHt]; [reflexivity|].
      destruct ev; cbn [filter is_write written]; try exact IHt;
        discriminate. }
    rewrite (Hw _ (handler_writes_nothing _ _ _)). cbn [written].
    rewrite !app_nil_r. reflexivity.
  - rewrite !count_app, handler_quiet.
    assert (Hq : forall l, count CloseFile
                   (flat_map (fun q => unit_events v (record_text q)) l)
                 = 0%nat).
    { induction l as [|q l IHl]; [reflexivity|].
      cbn [flat_map]. rewrite count_app, count_unit_events, IHl.
      reflexivity. }
    rewrite Hq. reflexivity.
Qed.

Lemma serbinlog_logs_frames_in_order_witness :
  exit (SerbinlogMain.main 3
          (both_open true x41 []
             (mkSerial (frames [[x00; x00; x00; x00; x01; x00; x02; x00];
                                [x10; x27; x00; x00; xff; xff; x00; x00]])
                Silent 0)))
    = Ok tt /\
  written
    (trace (SerbinlogMain.main 3
              (both_open true x41 []
                 (mkSerial (frames [[x00; x00; x00; x00; x01; x00; x02; x00];
                                    [x10; x27; x00; x00; xff; xff; x00; x00]])
                    Silent 0))))
    = flat_map (fun q => record_text q ++ [x0a])
        [[x00; x00; x00; x00; x01; x00; x02; x00];
         [x10; x27; x00; x00; xff; xff; x00; x00]] /\
  count CloseFile
    (trace (SerbinlogMain.main 3
              (both_open true x41 []
                 (mkSerial (frames [[x00; x00; x00; x00; x01; x00; x02; x00];
                                    [x10; x27; x00; x00; xff; xff; x00; x00]])
                    Silent 0)))) = 1%nat.
Proof.
  apply (serbinlog_logs_frames_in_order
           [[x00; x00; x00; x00; x01; x00; x02; x00];
            [x10; x27; x00; x00; xff; xff; x00; x00]]
           3 true x41 [] Silent 0).
  - repeat constructor.
  - cbn. lia.
  - reflexivity.
Defined.


(** *** [main] when both opens succeed *)

Section Started.
Variable imports : list string.
Variable produce : io str.
Variable banner : list event.
Hypothesis banner_quiet : forall e, count e banner = 0%nat.
Hypothesis banner_silent : written banner = [].
Hypothesis banner_file : forall st, file_run st banner = Some st.

Lemma main_exit fuel v p name ser :
  exit (main imports produce banner fuel (both_open v p name ser)) =
  status (logging_loop imports produce fuel v ser).
Proof.
  unfold main, both_open. cbn [opt_port port_open file_open opt_verbose].
  destruct (status (logging_loop imports produce fuel v ser)) as [[]| |];
    reflexivity.
Qed.

Lemma main_close_count fuel v p name ser :
  count CloseFile
    (trace (main imports produce banner fuel (both_open v p name ser))) =
  match status (logging_loop imports produce fuel v ser) with
  | Ok _ => 1%nat
  | _ => 0%nat
  end.
Proof.
  unfold main, both_open. cbn [opt_port port_open file_open opt_verbose].
  destruct (status (logging_loop imports produce fuel v ser)) as [[]| |];
    cbn [trace]; rewrite !count_app, banner_quiet, loop_quiet; reflexivity.
Qed.

Lemma main_open_count fuel v p name ser :
  count OpenFile
    (trace (main imports produce banner fuel (both_open v p name ser))) = 1%nat.
Proof.
  unfold main, both_open. cbn [opt_port port_open file_open opt_verbose].
  destruct (status (logging_loop imports produce fuel v ser)) as [[]| |];
    cbn [trace]; rewrite !count_app, banner_quiet, loop_quiet; reflexivity.
Qed.

Lemma main_written fuel v p name ser :
  written (trace (main imports produce banner fuel (both_open v p name ser))) =
  written (events (logging_loop imports produce fuel v ser)).
Proof.
  unfold main, both_open. cbn [opt_port port_open file_open opt_verbose].
  destruct (status (logging_loop imports produce fuel v ser)) as [[]| |];
    cbn [trace]; rewrite !written_app, banner_silent; cbn [written app];
    rewrite ?app_nil_r; reflexivity.
Qed.

(** The flag [--verbose] adds console output and nothing else. *)
Lemma loop_verbose fuel :
  forall ser,
    status (logging_loop imports produce fuel true ser) =
      status (logging_loop imports produce fuel false ser) /\
    port (logging_loop imports produce fuel true ser) =
      port (logging_loop imports produce fuel false ser) /\
    written (events (logging_loop imports produce fuel true ser)) =
      written (events (logging_loop imports produce fuel false ser)).
Proof.
  induction fuel as [|fuel IH]; intros ser; [repeat split|].
  cbn [logging_loop]. destruct (produce ser) as [[s|x|] ser'].
  - destruct (IH ser') as (Hs & Hp & Hw). cbn [emit status port events].
    repeat split; try assumption.
    rewrite !written_app, Hw. reflexivity.
  - repeat split.
  - repeat split.
Qed.

Lemma main_verbose fuel pn po fo :
  exit (main imports produce banner fuel (mkConfig true pn po fo)) =
    exit (main imports produce banner fuel (mkConfig false pn po fo)) /\
  written (trace (main imports produce banner fuel (mkConfig true pn po fo))) =
    written (trace (main imports produce banner fuel (mkConfig false pn po fo))).
Proof.
  destruct pn as [|p name]; [split; reflexivity|].
  destruct po as [ser|x]; [|split; reflexivity].
  destruct fo as [x|]; [split; reflexivity|].
  change (mkConfig true (p :: name) (inl ser) None)
    with (both_open true p name ser).
  change (mkConfig false (p :: name) (inl ser) None)
    with (both_open false p name ser).
  rewrite !main_exit, !main_written.
  destruct (loop_verbose fuel ser) as (Hs & _ & Hw). split; assumption.
Qed.

Lemma file_run_app (a b : list event) :
  forall st,
    file_run st (a ++ b) =
    match file_run st a with
    | Some st' => file_run st' b
    | None => None
    end.
Proof.
  induction a as [|ev a IH]; intros st; [reflexivity|].
  cbn [app file_run]. destruct (file_step st ev); [apply IH | reflexivity].
Qed.

Lemma loop_file_run fuel :
  forall v ser,
    file_run Opened (events (logging_loop imports produce fuel v ser)) =
    Some Opened.
Proof.
  induction fuel as [|fuel IH]; intros v ser; [reflexivity|].
  cbn [logging_loop]. destruct (produce ser) as [[s|x|] ser'].
  - cbn [emit events]. rewrite file_run_app.
    destruct v; cbn [app file_run file_step]; apply IH.
  - unfold handler.
    destruct (is_SerialTimeoutException x); [reflexivity|].
    destruct (is_Exception x); [|reflexivity].
    destruct (format_exc imports); reflexivity.
  - reflexivity.
Qed.

Lemma main_file_run fuel cfg :
  exists st,
    file_run NotOpened (trace (main imports produce banner fuel cfg)) = Some st /\
    (st = Closed <-> exit (main imports produce banner fuel cfg) = Ok tt).
Proof.
  unfold main. destruct (opt_port cfg) as [|p name].
  { exists NotOpened. cbn [trace exit]. rewrite banner_file.
    split; [reflexivity | split; discriminate]. }
  destruct (port_open cfg) as [ser|x].
  2:{ exists NotOpened.
      destruct (is_IOError x); cbn [trace exit];
        rewrite ?file_run_app, banner_file;
        (split; [reflexivity | split; discriminate]). }
  destruct (file_open cfg) as [x|].
  { exists NotOpened.
    destruct (is_IOError x); cbn [trace exit];
      rewrite ?file_run_app, banner_file;
      (split; [reflexivity | split; discriminate]). }
  cbv zeta.
  destruct (status (logging_loop imports produce fuel (opt_verbose cfg) ser))
    as [[]|x|]; cbn [trace exit];
    repeat (rewrite ?file_run_app, ?banner_file, ?loop_file_run;
            cbn [file_run file_step app]).
  - exists Closed. split; [reflexivity | split; reflexivity].
  - exists Opened. split; [reflexivity | split; discriminate].
  - exists Opened. split; [reflexivity | split; discriminate].
Qed.

Lemma main_startup fuel cfg :
  startup_policy cfg (main imports produce banner fuel cfg).
Proof.
  unfold startup_policy, main. repeat apply conj.
  - intros ->. cbn [exit trace]. rewrite !banner_quiet. repeat split.
  - intros x Hp ->. destruct (opt_port cfg); [contradiction|].
    destruct (is_IOError x); cbn [exit trace];
      rewrite ?count_app, !banner_quiet; repeat split.
  - intros ser x Hp -> ->. destruct (opt_port cfg); [contradiction|].
    destruct (is_IOError x); cbn [exit trace];
      rewrite ?count_app, ?written_app, !banner_quiet, banner_silent;
      repeat split.
Qed.
End Started.

Lemma quiet_banners :
  (forall e, count e SerbinlogMain.banner = 0%nat) /\
  (forall e, count e (@nil event) = 0%nat).
Proof. split; intros e; destruct e; reflexivity. Qed.

Lemma banners_keep_file :
  (forall st, file_run st SerbinlogMain.banner = Some st) /\
  (forall st, file_run st (@nil event) = Some st).
Proof. split; intros st; destruct st; reflexivity. Qed.


(** *** [serbinlog.py] *)

(** X11: on every stream, whatever its bytes, [main] of [serbinlog.py]
    returns once the port falls silent or raises an [Exception]; the file
    is then closed exactly once and closing it is the last thing done.
    A bound larger than the number of bytes in flight is never used
    up. *)
Theorem serbinlog_always_returns_and_closes
    (fuel : nat) (v : bool) (p : byte) (name s : str) (e : port_end)
    (n : nat) :
  (List.length s < fuel)%nat ->
  is_Exception (starved e) = true ->
  exit (SerbinlogMain.main fuel (both_open v p name (mkSerial s e n)))
    = Ok tt /\
  count CloseFile
    (trace (SerbinlogMain.main fuel (both_open v p name (mkSerial s e n))))
    = 1%nat /\
  exists t,
    trace (SerbinlogMain.main fuel (both_open v p name (mkSerial s e n)))
    = t ++ [CloseFile].
Proof.
  intros Hf Hx.
  pose proof (binlog_main_returns fuel v p name s e n Hf Hx) as Hexit.
  destruct (main_discipline SerbinlogMain.imports Serbinlog.readRecord
              SerbinlogMain.banner (proj1 quiet_banners) fuel
              (both_open v p name (mkSerial s e n)))
    as (_ & _ & _ & _ & H).
  destruct (H Hexit) as (_ & _ & Hc & Ht).
  split; [exact Hexit|]. split; [exact Hc | exact Ht].
Qed.

Lemma serbinlog_always_returns_and_closes_witness :
  exit (SerbinlogMain.main 4
          (both_open false x41 [] (mkSerial [xff; x00; xff] Silent 0)))
    = Ok tt /\
  count CloseFile
    (trace (SerbinlogMain.main 4
              (both_open false x41 [] (mkSerial [xff; x00; xff] Silent 0))))
    = 1%nat /\
  exists t,
    trace (SerbinlogMain.main 4
             (both_open false x41 [] (mkSerial [xff; x00; xff] Silent 0)))
    = t ++ [CloseFile].
Proof.
  apply (serbinlog_always_returns_and_closes 4 false x41 [] [xff; x00; xff]
           Silent 0).
  - cbn. lia.
  - reflexivity.
Defined.

(** *** [serlog.py] *)

Lemma split_line_shorter (s : str) :
  forall line rest,
    split_line s = Some (line, rest) ->
    (List.length rest < List.length s)%nat.
Proof.
  induction s as [|b s IH]; intros line rest H; [discriminate H|].
  cbn [split_line] in H. destruct (Byte.eqb b x0a).
  - injection H as _ <-. cbn. lia.
  - destruct (split_line s) as [[l r]|]; [|discriminate H].
    injection H as _ <-. specialize (IH l r eq_refl). cbn. lia.
Qed.

Lemma serlog_handler_status (x : exn) (ser : Serial) :
  status (handler Serlog.imports x ser) = serlog_ended_by x.
Proof. destruct x; reflexivity. Qed.

(** The loop of [serlog.py] ends on a port that raises. *)
Lemma serlog_loop_status (fuel : nat) :
  forall v s x n,
    (List.length s < fuel)%nat ->
    status (Serlog.logging_loop fuel v (mkSerial s (Broken x) n)) =
    serlog_ended_by x.
Proof.
  unfold Serlog.logging_loop.
  induction fuel as [|fuel IH]; intros v s x n Hf; [lia|].
  cbn [logging_loop]. unfold Serlog.nextLine, bind, readline.
  cbn [pending ending reads].
  destruct (split_line s) as [[line rest]|] eqn:E.
  - cbn [emit status ret]. apply IH.
    apply split_line_shorter in E. lia.
  - apply serlog_handler_status.
Qed.

(** X12: [serlog.py] ends when a read raises: on a port that raises [x]
    once its bytes are used up, [main] returns if [x] is a
    [SerialTimeoutException], and is left by [NameError] for any other
    [Exception] and by [x] itself otherwise; the file is closed in the
    first case only.  A bound larger than the number of bytes in flight
    is never used up. *)
Theorem serlog_ends_when_port_raises
    (fuel : nat) (v : bool) (p : byte) (name s : str) (x : exn) (n : nat) :
  (List.length s < fuel)%nat ->
  exit (Serlog.main fuel (both_open v p name (mkSerial s (Broken x) n)))
    = serlog_ended_by x /\
  count CloseFile
    (trace (Serlog.main fuel (both_open v p name (mkSerial s (Broken x) n))))
    = (if is_SerialTimeoutException x then 1 else 0)%nat.
Proof.
  intros Hf. unfold Serlog.main.
  rewrite main_exit, (main_close_count _ _ _ (proj2 quiet_banners)).
  pose proof (serlog_loop_status fuel v s x n Hf) as Hs.
  unfold Serlog.logging_loop in Hs. rewrite Hs.
  split; [reflexivity|]. destruct x; reflexivity.
Qed.

Lemma serlog_ends_when_port_raises_witness :
  exit (Serlog.main 5
          (both_open false x41 []
             (mkSerial [x68; x69; x0a; x6f] (Broken SerialTimeoutException) 0)))
    = serlog_ended_by SerialTimeoutException /\
  count CloseFile
    (trace (Serlog.main 5
              (both_open false x41 []
                 (mkSerial [x68; x69; x0a; x6f]
                    (Broken SerialTimeoutException) 0))))
    = (if is_SerialTimeoutException SerialTimeoutException then 1 else 0)%nat.
Proof.
  apply (serlog_ends_when_port_raises 5 false x41 [] [x68; x69; x0a; x6f]
           SerialTimeoutException 0).
  cbn. lia.
Defined.

(** X13: an exception that is not an [Exception], such as the
    [KeyboardInterrupt] of an interrupted read, is caught by neither
    script: it leaves [main], and the file that was opened is not
    closed. *)
Theorem interrupt_leaves_file_open
    (fuel : nat) (v : bool) (p : byte) (name s : str) (x : exn) (n : nat) :
  (List.length s < fuel)%nat ->
  is_Exception x = false ->
  (exit (SerbinlogMain.main fuel (both_open v p name (mkSerial s (Broken x) n)))
     = Raise x /\
   count OpenFile
     (trace (SerbinlogMain.main fuel
               (both_open v p name (mkSerial s (Broken x) n)))) = 1%nat /\
   count CloseFile
     (trace (SerbinlogMain.main fuel
               (both_open v p name (mkSerial s (Broken x) n)))) = 0%nat) /\
  (exit (Serlog.main fuel (both_open v p name (mkSerial s (Broken x) n)))
     = Raise x /\
   count OpenFile
     (trace (Serlog.main fuel
               (both_open v p name (mkSerial s (Broken x) n)))) = 1%nat /\
   count CloseFile
     (trace (Serlog.main fuel
               (both_open v p name (mkSerial s (Broken x) n)))) = 0%nat).
Proof.
  intros Hf Hx. split.
  - unfold SerbinlogMain.main.
    rewrite main_exit, (main_close_count _ _ _ (proj1 quiet_banners)),
      (main_open_count _ _ _ (proj1 quiet_banners)).
    pose proof (binlog_loop_status fuel v s (Broken x) n Hf) as Hs.
    unfold SerbinlogMain.logging_loop in Hs. rewrite Hs.
    unfold ended_by. cbn [starved]. rewrite Hx. repeat split.
  - unfold Serlog.main.
    rewrite main_exit, (main_close_count _ _ _ (proj2 quiet_banners)),
      (main_open_count _ _ _ (proj2 quiet_banners)).
    pose proof (serlog_loop_status fuel v s x n Hf) as Hs.
    unfold Serlog.logging_loop in Hs. rewrite Hs.
    unfold serlog_ended_by. rewrite Hx.
    destruct x; try discriminate Hx; repeat split.
Qed.

Lemma interrupt_leaves_file_open_witness :
  (exit (SerbinlogMain.main 3
           (both_open false x41 [] (mkSerial [x68; x0a] (Broken KeyboardInterrupt) 0)))
     = Raise KeyboardInterrupt /\
   count OpenFile
     (trace (SerbinlogMain.main 3
               (both_open false x41 []
                  (mkSerial [x68; x0a] (Broken KeyboardInterrupt) 0)))) = 1%nat /\
   count CloseFile
     (trace (SerbinlogMain.main 3
               (both_open false x41 []
                  (mkSerial [x68; x0a] (Broken KeyboardInterrupt) 0)))) = 0%nat) /\
  (exit (Serlog.main 3
           (both_open false x41 [] (mkSerial [x68; x0a] (Broken KeyboardInterrupt) 0)))
     = Raise KeyboardInterrupt /\
   count OpenFile
     (trace (Serlog.main 3
               (both_open false x41 []
                  (mkSerial [x68; x0a] (Broken KeyboardInterrupt) 0)))) = 1%nat /\
   count CloseFile
     (trace (Serlog.main 3
               (both_open false x41 []
                  (mkSerial [x68; x0a] (Broken KeyboardInterrupt) 0)))) = 0%nat).
Proof.
  apply (interrupt_leaves_file_open 3 false x41 [] [x68; x0a]
           KeyboardInterrupt 0).
  - cbn. lia.
  - reflexivity.
Defined.


Lemma nextLine_line (line rest : str) (e : port_end) (n : nat) :
  no_line_feed line ->
  Serlog.nextLine (mkSerial (line ++ x0a :: rest) e n) =
  (Ok (strip (line ++ [x0a])), mkSerial rest e (S n)).
Proof.
  intros Hlf. unfold Serlog.nextLine, bind, readline.
  cbn [pending ending reads]. rewrite (split_line_app line rest Hlf).
  reflexivity.
Qed.

(** X14: lines on the wire are copied in the order received: the loop of
    [serlog.py] takes the lines at the head of the stream one by one,
    writes each with the white space at its ends taken off and one line
    feed behind, makes one [readline] per line, and goes on with what
    follows. *)
Theorem serlog_copies_lines_in_order
    (ls : list str) (fuel : nat) (v : bool) (tail : str) (e : port_end)
    (n : nat) :
  Forall no_line_feed ls ->
  Serlog.logging_loop (List.length ls + fuel) v
    (mkSerial (text_lines ls ++ tail) e n) =
  emit (flat_map (fun l => unit_events v (strip (l ++ [x0a]))) ls)
       (Serlog.logging_loop fuel v (mkSerial tail e (n + List.length ls))).
Proof.
  unfold Serlog.logging_loop. revert n.
  induction ls as [|l ls IH]; intros n Hall.
  - cbn [text_lines flat_map app List.length Nat.add].
    rewrite emit_nil, Nat.add_0_r. reflexivity.
  - inversion Hall as [|? ? Hl Hls]; subst.
    cbn [text_lines flat_map List.length Nat.add]. rewrite <- !app_assoc.
    cbn [app].
    rewrite (loop_step_ok _ _ _ v _ (strip (l ++ [x0a]))
               (mkSerial (flat_map (fun k => k ++ [x0a]) ls ++ tail) e (S n)))
      by (apply nextLine_line; exact Hl).
    change (flat_map (fun k => k ++ [x0a]) ls) with (text_lines ls).
    rewrite (IH (S n) Hls), emit_emit.
    do 3 f_equal. lia.
Qed.

Lemma serlog_copies_lines_in_order_witness :
  Serlog.logging_loop (List.length [[x20; x61]; [x62; x0d]] + 1) true
    (mkSerial (text_lines [[x20; x61]; [x62; x0d]] ++ [x63]) Silent 0) =
  emit (flat_map (fun l => unit_events true (strip (l ++ [x0a])))
          [[x20; x61]; [x62; x0d]])
       (Serlog.logging_loop 1 true
          (mkSerial [x63] Silent (0 + List.length [[x20; x61]; [x62; x0d]]))).
Proof.
  apply (serlog_copies_lines_in_order [[x20; x61]; [x62; x0d]] 1 true [x63]
           Silent 0).
  repeat constructor; intros [H|[H|[]]]; discriminate H.
Defined.

(** X15: a stretch of bytes cut short by the read timeout is written as
    if it were a line: when no line feed is among the bytes in flight on
    a silent port, [readline] returns them all, and they are written,
    stripped, with a line feed behind. *)
Theorem timeout_ends_a_line
    (fuel : nat) (v : bool) (part : str) (n : nat) :
  no_line_feed part ->
  Serlog.logging_loop (S fuel) v (mkSerial part Silent n) =
  emit (unit_events v (strip part))
       (Serlog.logging_loop fuel v (mkSerial [] Silent (S n))).
Proof.
  intros Hlf. unfold Serlog.logging_loop. apply loop_step_ok.
  unfold Serlog.nextLine, bind, readline. cbn [pending ending reads].
  rewrite (split_line_none part Hlf). reflexivity.
Qed.

Lemma timeout_ends_a_line_witness :
  Serlog.logging_loop 2 false (mkSerial [x68; x69; x20] Silent 0) =
  emit (unit_events false (strip [x68; x69; x20]))
       (Serlog.logging_loop 1 false (mkSerial [] Silent 1)).
Proof.
  apply (timeout_ends_a_line 1 false [x68; x69; x20] 0).
  intros [H|[H|[H|[]]]]; discriminate H.
Defined.

Lemma lstrip_app_space (a b : str) :
  forallb isspace a = true -> lstrip (a ++ b) = lstrip b.
Proof.
  induction a as [|c a IH]; intros H; [reflexivity|].
  cbn [forallb] in H. apply andb_prop in H. destruct H as [Hc Ha].
  cbn [app lstrip]. rewrite Hc. apply IH, Ha.
Qed.

Lemma lstrip_id (s : str) : no_leading_space s -> lstrip s = s.
Proof.
  destruct s as [|b s]; [reflexivity|]. cbn [no_leading_space lstrip].
  intros ->. reflexivity.
Qed.

Lemma lstrip_all_space (a : str) : forallb isspace a = true -> lstrip a = [].
Proof.
  intros H. rewrite <- (app_nil_r a). rewrite (lstrip_app_space a [] H).
  reflexivity.
Qed.

(** [strip] gives back what lies between the white space. *)
Lemma strip_padded (lead core trail : str) :
  forallb isspace lead = true -> forallb isspace trail = true ->
  no_leading_space core -> no_trailing_space core ->
  strip (lead ++ core ++ trail) = core.
Proof.
  intros Hlead Htrail Hfront Hback. unfold strip, rstrip.
  rewrite (lstrip_app_space lead _ Hlead).
  destruct core as [|b core].
  - cbn [app]. rewrite (lstrip_all_space trail Htrail). reflexivity.
  - rewrite (lstrip_id ((b :: core) ++ trail)) by exact Hfront.
    rewrite rev_app_distr.
    rewrite (lstrip_app_space (rev trail) _ (forallb_rev _ _ Htrail)).
    rewrite (lstrip_id (rev (b :: core)) Hback).
    apply rev_involutive.
Qed.

(** X16: the text [serlog.py] takes from a line is what lies between the
    white space at its two ends: for a line made of white space, a core
    that neither starts nor ends with white space, white space again and
    the line feed, [nextLine] returns the core and leaves the port behind
    the line feed.  A carriage return before the line feed is dropped,
    and a line with white space only gives the empty text. *)
Theorem nextLine_returns_core
    (lead core trail rest : str) (e : port_end) (n : nat) :
  no_line_feed (lead ++ core ++ trail) ->
  forallb isspace lead = true ->
  forallb isspace trail = true ->
  no_leading_space core ->
  no_trailing_space core ->
  Serlog.nextLine (mkSerial ((lead ++ core ++ trail) ++ x0a :: rest) e n) =
  (Ok core, mkSerial rest e (S n)).
Proof.
  intros Hlf Hlead Htrail Hfront Hback.
  rewrite (nextLine_line _ rest e n Hlf).
  rewrite <- !app_assoc.
  rewrite (strip_padded lead core (trail ++ [x0a])); try assumption;
    [reflexivity|].
  rewrite forallb_app, Htrail. reflexivity.
Qed.

Lemma nextLine_returns_core_witness :
  Serlog.nextLine
    (mkSerial (([x20; x09] ++ [x61; x20; x62] ++ [x0d]) ++ x0a :: [x63])
       Silent 0) =
  (Ok [x61; x20; x62], mkSerial [x63] Silent 1).
Proof.
  apply (nextLine_returns_core [x20; x09] [x61; x20; x62] [x0d] [x63]
           Silent 0).
  - intros [H|[H|[H|[H|[H|[H|[]]]]]]]; discriminate H.
  - reflexivity.
  - reflexivity.
  - reflexivity.
  - reflexivity.
Defined.

(** *** Both scripts *)

(** X17: [--verbose] changes the console output only: with the flag set
    or not, either script ends the same way and writes the same bytes to
    the file, on every port and whether or not the opens succeed. *)
Theorem verbose_changes_console_only
    (fuel : nat) (pn : str) (po : Serial + exn) (fo : option exn) :
  (exit (SerbinlogMain.main fuel (mkConfig true pn po fo)) =
     exit (SerbinlogMain.main fuel (mkConfig false pn po fo)) /\
   written (trace (SerbinlogMain.main fuel (mkConfig true pn po fo))) =
     written (trace (SerbinlogMain.main fuel (mkConfig false pn po fo)))) /\
  (exit (Serlog.main fuel (mkConfig true pn po fo)) =
     exit (Serlog.main fuel (mkConfig false pn po fo)) /\
   written (trace (Serlog.main fuel (mkConfig true pn po fo))) =
     written (trace (Serlog.main fuel (mkConfig false pn po fo)))).
Proof.
  split; apply main_verbose; reflexivity.
Qed.

(** X18: the file is used in order in every session of either script: it
    is opened at most once, written only while open, never written
    before it is opened or after it is closed, and closed only when
    open; at the end it is closed if and only if [main] returned. *)
Theorem file_is_used_in_order (fuel : nat) (cfg : config) :
  (exists st,
      file_run NotOpened (trace (SerbinlogMain.main fuel cfg)) = Some st /\
      (st = Closed <-> exit (SerbinlogMain.main fuel cfg) = Ok tt)) /\
  (exists st,
      file_run NotOpened (trace (Serlog.main fuel cfg)) = Some st /\
      (st = Closed <-> exit (Serlog.main fuel cfg) = Ok tt)).
Proof.
  split; apply main_file_run.
  - exact (proj1 banners_keep_file).
  - exact (proj2 banners_keep_file).
Qed.

Lemma file_is_used_in_order_witness :
  exists st,
    file_run NotOpened
      (trace (SerbinlogMain.main 2
                (both_open false x41 [] (mkSerial [x01] Silent 0)))) = Some st /\
    (st = Closed <->
     exit (SerbinlogMain.main 2
             (both_open false x41 [] (mkSerial [x01] Silent 0))) = Ok tt).
Proof.
  apply (proj1 (file_is_used_in_order 2
                  (both_open false x41 [] (mkSerial [x01] Silent 0)))).
Defined.

(** X19: when a session cannot start, nothing is logged: without a port
    name [main] exits with status 2 before anything is opened; when the
    port does not open the file is not opened either; when the file does
    not open nothing is written; an [IOError] of either [open] becomes
    exit status 1 and any other exception leaves [main] as it is. *)
Theorem session_cannot_start (fuel : nat) (cfg : config) :
  startup_policy cfg (SerbinlogMain.main fuel cfg) /\
  startup_policy cfg (Serlog.main fuel cfg).
Proof.
  split.
  - apply main_startup; [exact (proj1 quiet_banners) | reflexivity].
  - apply main_startup; [exact (proj2 quiet_banners) | reflexivity].
Qed.

Lemma session_cannot_start_witness :
  exit (SerbinlogMain.main 3
          (mkConfig false [x41] (inl (mkSerial [] Silent 0)) (Some IOError)))
    = Raise (SystemExit 1) /\
  written
    (trace (Serlog.main 3
              (mkConfig false [x41] (inl (mkSerial [] Silent 0))
                 (Some ValueError)))) = [].
Proof.
  destruct (session_cannot_start 3
              (mkConfig false [x41] (inl (mkSerial [] Silent 0)) (Some IOError)))
    as [(_ & _ & Hbin) _].
  destruct (session_cannot_start 3
              (mkConfig false [x41] (inl (mkSerial [] Silent 0))
                 (Some ValueError)))
    as [_ (_ & _ & Hlog)].
  split.
  - apply (Hbin (mkSerial [] Silent 0) IOError); [discriminate | reflexivity ..].
  - apply (Hlog (mkSerial [] Silent 0) ValueError);
      [discriminate | reflexivity ..].
Defined.


Lemma written_no_writes (t : list event) :
  filter is_write t = [] -> written t = [].
Proof.
  induction t as [|ev t IH]; [reflexivity|].
  destruct ev; cbn [filter is_write written]; try exact IH; discriminate.
Qed.

Lemma binlog_loop_whole_lines (fuel : nat) :
  forall v s e n,
    exists ps,
      Forall (fun q => List.length q = 8%nat) ps /\
      (12 * List.length ps <= List.length s)%nat /\
      written (events (SerbinlogMain.logging_loop fuel v (mkSerial s e n))) =
      flat_map (fun q => record_text q ++ [x0a]) ps.
Proof.
  unfold SerbinlogMain.logging_loop.
  induction fuel as [|fuel IH]; intros v s e n.
  { exists []. repeat split; [constructor | cbn; lia]. }
  cbn [logging_loop]. rewrite readRecord_eq.
  destruct (first_occ s) as [i|].
  - destruct (Nat.leb 8 (List.length (skipn (i + 4) s))) eqn:E.
    + apply Nat.leb_le in E.
      destruct (IH v (skipn 8 (skipn (i + 4) s)) e (S (n + (i + 4))))
        as (ps & Hall & Hlen & Hw).
      exists (firstn 8 (skipn (i + 4) s) :: ps).
      split; [constructor; [apply firstn_length_le, E | exact Hall]|].
      split.
      * rewrite !length_skipn in *. cbn [List.length]. lia.
      * cbn [emit events]. rewrite written_app, Hw.
        destruct v; reflexivity.
    + exists []. split; [constructor|]. split; [cbn; lia|].
      apply written_no_writes, handler_writes_nothing.
  - exists []. split; [constructor|]. split; [cbn; lia|].
    apply written_no_writes, handler_writes_nothing.
Qed.

(** X22: whatever arrives on the port and however the session ends, the
    file written by [serbinlog.py] holds whole lines only: its content is
    the text of some 8-byte payloads, each followed by one line feed;
    when the port opened, there are at most as many lines as twelfths of
    the bytes that arrived. *)
Theorem serbinlog_file_holds_whole_lines (fuel : nat) (cfg : config) :
  exists ps,
    Forall (fun q => List.length q = 8%nat) ps /\
    written (trace (SerbinlogMain.main fuel cfg)) =
      flat_map (fun q => record_text q ++ [x0a]) ps /\
    (forall ser, port_open cfg = inl ser ->
                 (12 * List.length ps <= List.length (pending ser))%nat).
Proof.
  destruct cfg as [v pn po fo].
  assert (Hnone : written (trace (SerbinlogMain.main fuel (mkConfig v pn po fo)))
                  = [] ->
                  exists ps,
                    Forall (fun q => List.length q = 8%nat) ps /\
                    written (trace (SerbinlogMain.main fuel (mkConfig v pn po fo)))
                      = flat_map (fun q => record_text q ++ [x0a]) ps /\
                    (forall ser, port_open (mkConfig v pn po fo) = inl ser ->
                       (12 * List.length ps <= List.length (pending ser))%nat)).
  { intros H. exists []. rewrite H.
    split; [constructor|]. split; [reflexivity | intros; cbn; lia]. }
  destruct pn as [|p name]; [apply Hnone; reflexivity|].
  destruct po as [[s e n]|x];
    [|apply Hnone; cbn; destruct (is_IOError x); reflexivity].
  destruct fo as [x|];
    [apply Hnone; cbn; destruct (is_IOError x); reflexivity|].
  clear Hnone.
  destruct (binlog_loop_whole_lines fuel v s e n) as (ps & Hall & Hlen & Hw).
  exists ps. split; [exact Hall|]. split.
  - change (mkConfig v (p :: name) (inl (mkSerial s e n)) None)
      with (both_open v p name (mkSerial s e n)).
    unfold SerbinlogMain.main. rewrite main_written by reflexivity.
    exact Hw.
  - intros ser Hser. cbn [port_open] in Hser. injection Hser as <-.
    exact Hlen.
Qed.

Lemma serbinlog_file_holds_whole_lines_witness :
  exists ps,
    Forall (fun q => List.length q = 8%nat) ps /\
    written
      (trace (SerbinlogMain.main 3
                (both_open false x41 []
                   (mkSerial [xff; xff; xff; xff; x01; x02] Silent 0)))) =
      flat_map (fun q => record_text q ++ [x0a]) ps /\
    (forall ser,
        port_open (both_open false x41 []
                     (mkSerial [xff; xff; xff; xff; x01; x02] Silent 0))
        = inl ser ->
        (12 * List.length ps <= List.length (pending ser))%nat).
Proof.
  apply (serbinlog_file_holds_whole_lines 3
           (both_open false x41 []
              (mkSerial [xff; xff; xff; xff; x01; x02] Silent 0))).
Defined.


End SessionMore.

(* ================================================================== *)
(** ** The default name of the output file *)
(* ================================================================== *)

Module DefaultNameFacts.
Import Py Vocabulary DefaultName SyncFacts DecodeFacts DecodeMore.

Lemma fn_def_eq (dt : datetime) :
  fn_def dt =
  format_d (year dt) ++ [x2d] ++ pad2 (month dt) ++ [x2d] ++ pad2 (day dt)
    ++ [x2d] ++ pad2 (hour dt) ++ pad2 (minute dt) ++ pad2 (second dt)
    ++ list_byte_of_string "-log_data.csv".
Proof. reflexivity. Qed.

Lemma digit_char_inj (a b : Z) :
  0 <= a < 10 -> 0 <= b < 10 -> digit_char a = digit_char b -> a = b.
Proof.
  intros Ha Hb H. apply (f_equal byte_val) in H.
  rewrite !digit_char_val in H by assumption. lia.
Qed.

Lemma pad2_inj (n m : Z) :
  0 <= n < 100 -> 0 <= m < 100 -> pad2 n = pad2 m -> n = m.
Proof.
  intros Hn Hm H. unfold pad2 in H. injection H as Hq Hr.
  pose proof (Z.div_mod n 10 ltac:(lia)).
  pose proof (Z.div_mod m 10 ltac:(lia)).
  pose proof (Z.mod_pos_bound n 10 ltac:(lia)).
  pose proof (Z.mod_pos_bound m 10 ltac:(lia)).
  apply digit_char_inj in Hq, Hr; try assumption; [lia | |];
    (split; [apply Z.div_pos; lia | apply Z.div_lt_upper_bound; lia]).
Qed.

Lemma dec_value_app (a b : str) :
  dec_value (a ++ b) =
  fold_left (fun acc c => 10 * acc + (byte_val c - 48)) b (dec_value a).
Proof. unfold dec_value. apply fold_left_app. Qed.

(** A numeral of [k] digits is below [10 ^ k]. *)
Lemma dec_value_bound (s : str) :
  forallb is_digit s = true ->
  0 <= dec_value s < 10 ^ Z.of_nat (List.length s).
Proof.
  induction s as [|c s IH] using rev_ind; intros H; [cbn; lia|].
  rewrite forallb_app in H. apply andb_prop in H. destruct H as [Hs Hc].
  cbn [forallb] in Hc. rewrite andb_true_r in Hc. unfold is_digit in Hc.
  apply andb_prop in Hc. destruct Hc as [Hlo Hhi].
  apply Z.leb_le in Hlo, Hhi. specialize (IH Hs).
  rewrite dec_value_snoc, length_app. cbn [List.length].
  rewrite Nat.add_1_r, Nat2Z.inj_succ, Z.pow_succ_r by lia. lia.
Qed.

Lemma format_d_four_digits (y : Z) :
  1000 <= y <= 9999 -> List.length (format_d y) = 4%nat.
Proof.
  intros Hy.
  destruct (format_d_decimal y ltac:(lia)) as (_ & Hdig & _ & Hval).
  pose proof (dec_value_bound _ Hdig) as Hb. rewrite Hval in Hb.
  pose proof (format_d_length y 4 ltac:(lia)) as Hl.
  change (10 ^ Z.of_nat 4) with 10000 in Hl. specialize (Hl ltac:(lia)).
  destruct (List.length (format_d y)) as [|[|[|[|k]]]]; cbn in Hb; lia.
Qed.

Lemma app_inj_length {A : Type} (a a' b b' : list A) :
  List.length a = List.length a' -> a ++ b = a' ++ b' -> a = a' /\ b = b'.
Proof.
  revert a'. induction a as [|x a IH]; intros [|x' a'] Hl H;
    try discriminate Hl.
  - split; [reflexivity | exact H].
  - injection Hl as Hl. injection H as -> H.
    destruct (IH a' Hl H) as [-> ->]. split; reflexivity.
Qed.

Lemma pad2_two_digits (n : Z) : 0 <= n < 100 -> two_digits n (pad2 n).
Proof.
  intros Hn. unfold two_digits, pad2.
  pose proof (Z.div_mod n 10 ltac:(lia)).
  pose proof (Z.mod_pos_bound n 10 ltac:(lia)) as Hr.
  assert (Hq : 0 <= n / 10 < 10)
    by (split; [apply Z.div_pos; lia | apply Z.div_lt_upper_bound; lia]).
  split; [reflexivity|]. split.
  - cbn [forallb]. rewrite !is_digit_digit_char by assumption. reflexivity.
  - unfold dec_value. cbn [fold_left].
    rewrite !digit_char_val by assumption. lia.
Qed.

(** X20: for a date and time with a year from 1900 to 9999 the default
    file name is laid out as [YYYY-MM-DD-HHMMSS-log_data.csv]: the decimal
    year on four digits, a dash, the month on two digits, a dash, the day
    on two digits, a dash, hour, minute and second on two digits each,
    then [-log_data.csv]; it is 30 bytes long; and two readings of the
    clock give the same default name only if they agree in year, month,
    day, hour, minute and second. *)
Theorem fn_def_names_the_second (dt dt' : datetime) :
  valid dt -> valid dt' ->
  (exists Y Mo D H Mi S : str,
      fn_def dt =
        Y ++ [x2d] ++ Mo ++ [x2d] ++ D ++ [x2d] ++ H ++ Mi ++ S
          ++ list_byte_of_string "-log_data.csv" /\
      decimal_of (year dt) Y /\ List.length Y = 4%nat /\
      two_digits (month dt) Mo /\ two_digits (day dt) D /\
      two_digits (hour dt) H /\ two_digits (minute dt) Mi /\
      two_digits (second dt) S) /\
  List.length (fn_def dt) = 30%nat /\
  (fn_def dt = fn_def dt' -> dt = dt').
Proof.
  intros (Hy & Hm & Hd & Hh & Hmi & Hs) (Hy' & Hm' & Hd' & Hh' & Hmi' & Hs').
  split; [|rewrite !fn_def_eq; split].
  - exists (format_d (year dt)), (pad2 (month dt)), (pad2 (day dt)),
      (pad2 (hour dt)), (pad2 (minute dt)), (pad2 (second dt)).
    split; [apply fn_def_eq|].
    split; [apply format_d_decimal; lia|].
    split; [apply format_d_four_digits; lia|].
    repeat apply conj; apply pad2_two_digits; lia.
  - rewrite !length_app, format_d_four_digits by lia. reflexivity.
  - intros H.
    apply app_inj_length in H;
      [|rewrite !format_d_four_digits by lia; reflexivity].
    destruct H as [Ey H]. cbn [app pad2] in H.
    injection H as Em1 Em2 Ed1 Ed2 Eh1 Eh2 Emi1 Emi2 Es1 Es2.
    apply format_d_inj in Ey; [|lia ..].
    assert (Em : month dt = month dt')
      by (apply pad2_inj; [lia | lia | unfold pad2; congruence]).
    assert (Ed : day dt = day dt')
      by (apply pad2_inj; [lia | lia | unfold pad2; congruence]).
    assert (Eh : hour dt = hour dt')
      by (apply pad2_inj; [lia | lia | unfold pad2; congruence]).
    assert (Emi : minute dt = minute dt')
      by (apply pad2_inj; [lia | lia | unfold pad2; congruence]).
    assert (Es : second dt = second dt')
      by (apply pad2_inj; [lia | lia | unfold pad2; congruence]).
    destruct dt, dt'. cbn in *. congruence.
Qed.

Lemma fn_def_names_the_second_witness :
  (exists Y Mo D H Mi S : str,
      fn_def (mkDatetime 2015 3 7 9 5 0) =
        Y ++ [x2d] ++ Mo ++ [x2d] ++ D ++ [x2d] ++ H ++ Mi ++ S
          ++ list_byte_of_string "-log_data.csv" /\
      decimal_of (year (mkDatetime 2015 3 7 9 5 0)) Y /\
      List.length Y = 4%nat /\
      two_digits (month (mkDatetime 2015 3 7 9 5 0)) Mo /\
      two_digits (day (mkDatetime 2015 3 7 9 5 0)) D /\
      two_digits (hour (mkDatetime 2015 3 7 9 5 0)) H /\
      two_digits (minute (mkDatetime 2015 3 7 9 5 0)) Mi /\
      two_digits (second (mkDatetime 2015 3 7 9 5 0)) S) /\
  List.length (fn_def (mkDatetime 2015 3 7 9 5 0)) = 30%nat /\
  (fn_def (mkDatetime 2015 3 7 9 5 0) = fn_def (mkDatetime 2015 3 7 9 5 1) ->
   mkDatetime 2015 3 7 9 5 0 = mkDatetime 2015 3 7 9 5 1).
Proof.
  apply (fn_def_names_the_second (mkDatetime 2015 3 7 9 5 0)
           (mkDatetime 2015 3 7 9 5 1)).
  - unfold valid. cbn. lia.
  - unfold valid. cbn. lia.
Defined.

Example fn_def_example :
  fn_def (mkDatetime 2015 3 7 9 5 0) =
  list_byte_of_string "2015-03-07-090500-log_data.csv".
Proof. reflexivity. Qed.

End DefaultNameFacts.
